(** * Connectors of react-instantsearch: hierarchical menu, multi range, sort by

    A shallow embedding of the three connectors
    [connectHierarchicalMenu.js], [connectMultiRange.js] and
    [connectSortBy.js], and the properties of their state handling,
    refinement codec and overlap test.

    Layout: JavaScript values and the primitives the connectors call
    ([JS]), the lodash helpers they import ([Lodash]), the query-parameters
    builder ([SearchParameters]), the three connectors, then the theorems. *)

From Stdlib Require Import String Ascii List ZArith Lia Bool.
From Stdlib Require Import DecimalString DecimalPos.
Import ListNotations.
Local Open Scope string_scope.
Local Open Scope Z_scope.

(* ===================================================================== *)
(** ** JavaScript values and primitives *)
(* ===================================================================== *)

Module JS.

(** Numbers.  The connectors compare and print bucket bounds; the model keeps
    the integers, the two infinities and NaN.  A JavaScript number is a
    double: every integer below [2^53] in magnitude is one, and the
    functions that make a number out of digits ([parseInt], [Number]) round
    to the nearest double. *)
Inductive num : Type :=
| NaN
| NegInf
| PosInf
| Int (z : Z).

(** Plain serialisable values, as the search state holds them.  An object
    is its own enumerable properties in insertion order.  A string is a
    sequence of one-byte characters. *)
#[warnings="-register-all"]
Inductive jsval : Type :=
| VUndef
| VNull
| VBool (b : bool)
| VNum (n : num)
| VStr (s : string)
| VObj (ps : list (string * jsval)).

Inductive error : Type :=
| TypeError.

(** A computation that returns a value or throws. *)
Inductive result (A : Type) : Type :=
| Ok (a : A)
| Throw (e : error).
Arguments Ok {A} a.
Arguments Throw {A} e.

Definition bind {A B} (r : result A) (k : A -> result B) : result B :=
  match r with
  | Ok a => k a
  | Throw e => Throw e
  end.

(** [<] on numbers: every comparison with NaN is false. *)
Definition num_ltb (a b : num) : bool :=
  match a, b with
  | NaN, _ | _, NaN => false
  | NegInf, NegInf => false
  | NegInf, _ => true
  | _, NegInf => false
  | PosInf, _ => false
  | Int _, PosInf => true
  | Int x, Int y => x <? y
  end.

(** [a > b] is [b < a]. *)
Definition num_gtb (a b : num) : bool := num_ltb b a.

(** [===] on numbers: NaN is not equal to itself. *)
Definition num_eqb (a b : num) : bool :=
  match a, b with
  | NegInf, NegInf | PosInf, PosInf => true
  | Int x, Int y => x =? y
  | _, _ => false
  end.

(** ToBoolean. *)
Definition truthy (v : jsval) : bool :=
  match v with
  | VUndef | VNull => false
  | VBool b => b
  | VNum NaN => false
  | VNum (Int z) => negb (z =? 0)
  | VNum _ => true
  | VStr s => negb (s =? "")%string
  | VObj _ => true
  end.

(** [2^53]: below it, every integer is a double. *)
Definition pow53 : Z := 9007199254740992.

(** [Number.isSafeInteger]. *)
Definition safe_integer (z : Z) : bool := Z.abs z <? pow53.

(** The double nearest to the natural number [y], a tie going to the even
    significand; [None] beyond the largest double, where the number is an
    infinity. *)
Definition nearest_double (y : Z) : option Z :=
  if y <? pow53 then Some y
  else
    let e := Z.log2 y - 52 in
    let q := Z.shiftr y e in
    let r := y - Z.shiftl q e in
    let half := Z.shiftl 1 (e - 1) in
    let q' := if (half <? r) || ((r =? half) && Z.odd q) then q + 1 else q in
    let d := Z.shiftl q' e in
    if d <? 2 ^ 1024 then Some d else None.

Definition signed (neg : bool) (z : Z) : Z := if neg then - z else z.

(** The number a sign and a natural number denote. *)
Definition num_of_digits (neg : bool) (y : Z) : num :=
  match nearest_double y with
  | Some d => Int (signed neg d)
  | None => if neg then NegInf else PosInf
  end.

(** The decimal digits of a natural number. *)
Definition digits (y : Z) : string := NilZero.string_of_int (Z.to_int y).

Definition digit_count (y : Z) : Z := Z.of_nat (String.length (digits y)).

(** The decimal [s * 10^m] of [k] digits that denotes the double [x], if
    there is one: the nearest to [x], and of two equally near the even
    one. *)
Definition shortest_candidate (x k : Z) : option (Z * Z) :=
  let n := digit_count x in
  let nearer (a b : Z * Z) : bool :=
    let da := Z.abs (fst a * 10 ^ snd a - x) in
    let db := Z.abs (fst b * 10 ^ snd b - x) in
    (da <? db) || ((da =? db) && Z.even (fst a)) in
  let denotes (sm : Z * Z) : bool :=
    (10 ^ (k - 1) <=? fst sm) && (fst sm <? 10 ^ k)
    && match nearest_double (fst sm * 10 ^ snd sm) with
       | Some d => d =? x
       | None => false
       end in
  let found :=
    flat_map (fun m =>
                if m <? 0 then []
                else filter denotes [(x / 10 ^ m, m); (x / 10 ^ m + 1, m)])
             [n - k; n + 1 - k] in
  match found with
  | [] => None
  | a :: rest => Some (fold_left (fun best c => if nearer c best then c else best) rest a)
  end.

(** The shortest decimal that denotes the double [x]: its digits [s] and the
    number [m] of zeros that follow them.  Seventeen digits identify any
    double. *)
Fixpoint shortest_decimal (x : Z) (k : Z) (fuel : nat) : Z * Z :=
  match fuel with
  | O => (x, 0)
  | S fuel' =>
      match shortest_candidate x k with
      | Some sm => sm
      | None => shortest_decimal x (k + 1) fuel'
      end
  end.

Fixpoint zeros (m : nat) : string :=
  match m with
  | O => EmptyString
  | S m' => String "0" (zeros m')
  end.

(** [Number::toString] on a natural number: the shortest digits that denote
    it, followed by zeros below [10^21] and in exponent form from there
    on. *)
Definition natural_to_string (x : Z) : string :=
  if x <? pow53 then digits x
  else
    let '(s, m) := shortest_decimal x 1 17 in
    let n := digit_count s + m in
    if n <=? 21 then digits s ++ zeros (Z.to_nat m)
    else
      match digits s with
      | String d EmptyString => String d ("e+" ++ digits (n - 1))
      | String d rest => String d ("." ++ rest ++ "e+" ++ digits (n - 1))
      | EmptyString => EmptyString
      end.

(** The decimal text of a number, as a template literal prints it. *)
Definition num_to_string (n : num) : string :=
  match n with
  | NaN => "NaN"
  | NegInf => "-Infinity"
  | PosInf => "Infinity"
  | Int z => if z <? 0 then String "-" (natural_to_string (- z)) else natural_to_string z
  end.

(** ToString, as the template literal of [stringifyItem] applies it. *)
Definition to_string (v : jsval) : string :=
  match v with
  | VUndef => "undefined"
  | VNull => "null"
  | VBool true => "true"
  | VBool false => "false"
  | VNum n => num_to_string n
  | VStr s => s
  | VObj _ => "[object Object]"
  end.

(** [typeof v === 'undefined']. *)
Definition is_undefined (v : jsval) : bool :=
  match v with
  | VUndef => true
  | _ => false
  end.

(** [v === '']. *)
Definition is_empty_string (v : jsval) : bool :=
  match v with
  | VStr s => (s =? "")%string
  | _ => false
  end.

(** [v === null]. *)
Definition is_null (v : jsval) : bool :=
  match v with
  | VNull => true
  | _ => false
  end.

(** [v === s] for a string [s]. *)
Definition eq_string (v : jsval) (s : string) : bool :=
  match v with
  | VStr t => (t =? s)%string
  | _ => false
  end.

(** *** Strings *)

(** [s.split(c)] for a one-character separator: never empty. *)
Fixpoint split (c : ascii) (s : string) : list string :=
  match s with
  | EmptyString => [EmptyString]
  | String a r =>
      if Ascii.eqb a c then EmptyString :: split c r
      else match split c r with
           | p :: ps => String a p :: ps
           | [] => [String a EmptyString]
           end
  end.

(** Whether [c] occurs in [s]. *)
Fixpoint contains (c : ascii) (s : string) : bool :=
  match s with
  | EmptyString => false
  | String a r => Ascii.eqb a c || contains c r
  end.

(** The ASCII white space that [parseInt] and [Number] skip. *)
Definition is_space (c : ascii) : bool :=
  let n := nat_of_ascii c in
  (Nat.eqb n 32 || (Nat.leb 9 n && Nat.leb n 13))%bool.

Fixpoint trim_start (s : string) : string :=
  match s with
  | String c r => if is_space c then trim_start r else s
  | EmptyString => EmptyString
  end.

Fixpoint rev_string (acc s : string) : string :=
  match s with
  | EmptyString => acc
  | String c r => rev_string (String c acc) r
  end.

Definition trim (s : string) : string :=
  rev_string EmptyString (trim_start (rev_string EmptyString (trim_start s))).

Definition digit_of (c : ascii) : option Z :=
  let n := nat_of_ascii c in
  if (Nat.leb 48 n && Nat.leb n 57)%bool then Some (Z.of_nat n - 48) else None.

(** The longest prefix of decimal digits of [s], read with accumulator
    [acc]; [None] when [s] starts with no digit. *)
Fixpoint parse_digits (acc : option Z) (s : string) : option Z :=
  match s with
  | EmptyString => acc
  | String c r =>
      match digit_of c with
      | Some d =>
          parse_digits (Some (10 * match acc with Some a => a | None => 0 end + d)) r
      | None => acc
      end
  end.

(** Whether [s] is made of decimal digits only. *)
Fixpoint all_digits (s : string) : bool :=
  match s with
  | EmptyString => true
  | String c r =>
      match digit_of c with
      | Some _ => all_digits r
      | None => false
      end
  end.

(** An optional sign, then the rest. *)
Definition read_sign (s : string) : bool * string :=
  match s with
  | String "-" r => (true, r)
  | String "+" r => (false, r)
  | _ => (false, s)
  end.

(** [parseInt(s, 10)]: leading white space, an optional sign, the longest
    run of digits; NaN when there is none. *)
Definition parseInt (s : string) : num :=
  let '(neg, body) := read_sign (trim_start s) in
  match parse_digits None body with
  | Some z => num_of_digits neg z
  | None => NaN
  end.

(** The longest prefix of decimal digits of [s], and what follows it. *)
Fixpoint span_digits (s : string) : string * string :=
  match s with
  | EmptyString => (EmptyString, EmptyString)
  | String c r =>
      match digit_of c with
      | Some _ => let '(d, rest) := span_digits r in (String c d, rest)
      | None => (EmptyString, s)
      end
  end.

(** The value of a run of digits, 0 for the empty run. *)
Definition digits_value (s : string) : Z :=
  match parse_digits None s with
  | Some z => z
  | None => 0
  end.

(** The exponent part that ends a decimal literal: [e] or [E], an optional
    sign and digits; 0 when there is no exponent part, [None] for anything
    else. *)
Definition exponent_of (s : string) : option Z :=
  match s with
  | EmptyString => Some 0
  | String c r =>
      if (Ascii.eqb c "e" || Ascii.eqb c "E")%bool then
        let '(neg, body) := read_sign r in
        if negb (body =? "")%string && all_digits body
        then Some (signed neg (digits_value body))
        else None
      else None
  end.

(** [Number(s)] on a string: white space trimmed, the empty string is 0; a
    signed decimal literal (digits, an optional fraction, an optional
    exponent part) or [Infinity] is its value, anything else NaN.  The model
    holds integers: a literal whose value is not an integer reads as NaN
    here, and so do the literals with a radix prefix. *)
Definition Number_of_string (s : string) : num :=
  let t := trim s in
  if (t =? "")%string then Int 0
  else
    let '(neg, body) := read_sign t in
    if (body =? "Infinity")%string then (if neg then NegInf else PosInf)
    else
      let '(int_part, rest) := span_digits body in
      let '(frac_part, rest) :=
        match rest with
        | String "." r => span_digits r
        | _ => (EmptyString, rest)
        end in
      if (int_part =? "")%string && (frac_part =? "")%string then NaN
      else
        match exponent_of rest with
        | None => NaN
        | Some e =>
            let all := digits_value (int_part ++ frac_part) in
            let scale := e - Z.of_nat (String.length frac_part) in
            if 0 <=? scale then num_of_digits neg (all * 10 ^ scale)
            else if all mod 10 ^ (- scale) =? 0
                 then num_of_digits neg (all / 10 ^ (- scale))
                 else NaN
        end.

(** [Number(range[i])], where a missing element is [undefined]. *)
Definition Number_of_elem (e : option string) : num :=
  match e with
  | Some s => Number_of_string s
  | None => NaN
  end.

(** *** Objects *)

Fixpoint lookup {A} (k : string) (ps : list (string * A)) : option A :=
  match ps with
  | [] => None
  | (k', v) :: r => if (k' =? k)%string then Some v else lookup k r
  end.

Fixpoint remove_key {A} (k : string) (ps : list (string * A)) : list (string * A) :=
  match ps with
  | [] => []
  | (k', v) :: r =>
      if (k' =? k)%string then remove_key k r else (k', v) :: remove_key k r
  end.

(** Assignment of a property: an existing key keeps its position, a new one
    goes last. *)
Fixpoint set_key {A} (k : string) (v : A) (ps : list (string * A)) : list (string * A) :=
  match ps with
  | [] => [(k, v)]
  | (k', v') :: r =>
      if (k' =? k)%string then (k, v) :: r else (k', v') :: set_key k v r
  end.

(** The characters of a string under their indices, from index [i] on. *)
Fixpoint string_chars (i : nat) (s : string) : list (string * jsval) :=
  match s with
  | EmptyString => []
  | String c r =>
      (NilZero.string_of_uint (Nat.to_uint i), VStr (String c EmptyString))
        :: string_chars (S i) r
  end.

(** The own enumerable properties of a value, which a spread or a copy
    takes: the properties of an object, the characters of a string. *)
Definition own_props (v : jsval) : list (string * jsval) :=
  match v with
  | VObj ps => ps
  | VStr s => string_chars 0 s
  | _ => []
  end.

(** The own property [k] of a value, as [hasOwnProperty] sees it: a string
    also has its [length], which is not enumerable. *)
Definition get_own (v : jsval) (k : string) : option jsval :=
  match v with
  | VStr s =>
      if (k =? "length")%string then Some (VNum (Int (Z.of_nat (String.length s))))
      else lookup k (own_props v)
  | _ => lookup k (own_props v)
  end.

(** [{...ps, ...v}]: the own properties of [v] assigned in order. *)
Definition spread (ps : list (string * jsval)) (v : jsval) : list (string * jsval) :=
  fold_left (fun acc kv => set_key (fst kv) (snd kv) acc) (own_props v) ps.

(** [v[k]]: throws on [undefined] and [null]; an own property is read, any
    other is [undefined] (the methods a value inherits are not
    modelled). *)
Definition get (v : jsval) (k : string) : result jsval :=
  match v with
  | VUndef | VNull => Throw TypeError
  | _ => Ok match get_own v k with Some x => x | None => VUndef end
  end.

(** [a === b] on primitives.  Objects are compared by identity, which a
    plain value does not carry: two objects are taken to be distinct. *)
Definition strict_eqb (a b : jsval) : bool :=
  match a, b with
  | VUndef, VUndef | VNull, VNull => true
  | VBool x, VBool y => Bool.eqb x y
  | VNum x, VNum y => num_eqb x y
  | VStr x, VStr y => (x =? y)%string
  | _, _ => false
  end.

Notation "x <- r ;; k" := (bind r (fun x => k))
  (at level 61, r at next level, right associativity).

(** [l.slice(0, n).map(f)] for an [f] that may throw. *)
Fixpoint sliceMap {A B} (f : A -> result B) (l : list A) (n : nat) {struct l}
  : result (list B) :=
  match l, n with
  | x :: rest, S n' =>
      y <- f x ;;
      ys <- sliceMap f rest n' ;;
      Ok (y :: ys)
  | _, _ => Ok []
  end.

End JS.

(* ===================================================================== *)
(** ** The lodash helpers the connectors import *)
(* ===================================================================== *)

Module Lodash.
Import JS.

(** A property path: lodash accepts an array of keys, or a string that it
    casts to one. *)
Definition path := list string.

(** [stringToPath] on a string without bracket syntax: the keys between the
    dots. *)
Definition stringToPath (s : string) : path := split "." s.

Definition hasOwn (object : jsval) (k : string) : bool :=
  match get_own object k with
  | Some _ => true
  | None => false
  end.

(** [castPath(value, object)] for a string: a string with no dot is one key;
    so is a dotted string that is itself a key of [object]; any other is
    split.  (The bracket syntax of paths, [a[0]], is not modelled.) *)
Definition castPath (value : string) (object : jsval) : path :=
  if negb (contains "." value) then [value]
  else if hasOwn object value then [value]
  else stringToPath value.

(** [hasPath]: every key of the path is an own property of the object
    reached so far. *)
Fixpoint hasPath (object : jsval) (p : path) : bool :=
  match p with
  | [] => false
  | k :: rest =>
      match get_own object k with
      | Some x =>
          match rest with
          | [] => true
          | _ :: _ => hasPath x rest
          end
      | None => false
      end
  end.

(** [_.has(object, 'a.b')]. *)
Definition has (object : jsval) (p : string) : bool :=
  hasPath object (castPath p object).

(** [_.has(object, ['a', 'b'])]. *)
Definition has_keys (object : jsval) (p : path) : bool :=
  hasPath object p.

(** [baseUnset] on a value: the last key is deleted from the object the
    rest of the path leads to; nothing changes when the path leads
    nowhere.  The result is the value after the deletion. *)
Fixpoint baseUnset (object : jsval) (p : path) : jsval :=
  match p with
  | [] => VObj (remove_key "undefined" (own_props object))
  | k :: rest =>
      match object with
      | VObj ps =>
          match rest with
          | [] => VObj (remove_key k ps)
          | _ :: _ =>
              match lookup k ps with
              | Some x => VObj (set_key k (baseUnset x rest) ps)
              | None => object
              end
          end
      | _ => object
      end
  end.

(** [_.omit(object, 'a.b')]: a copy of [object] (a deep one when the path
    is deep) from which the path is then unset; [{}] for a nullish
    [object]. *)
Definition omit (object : jsval) (p : string) : jsval :=
  match object with
  | VUndef | VNull => VObj []
  | _ => baseUnset (VObj (own_props object)) (castPath p object)
  end.

(** [_.isEmpty]: nullish values, empty strings, objects without own
    properties, and every number and boolean. *)
Definition isEmpty (v : jsval) : bool :=
  match v with
  | VUndef | VNull => true
  | VBool _ | VNum _ => true
  | VStr s => (s =? "")%string
  | VObj ps =>
      match ps with
      | [] => true
      | _ :: _ => false
      end
  end.

(** [_.find(l, f)]: the first element that satisfies [f], or
    [undefined]. *)
Definition find {A} (l : list A) (f : A -> bool) : option A :=
  List.find f l.

End Lodash.

(* ===================================================================== *)
(** ** A store of objects *)
(* ===================================================================== *)

(** lodash [unset] updates its argument in place, so the one connector
    function that calls it ([cleanUp] of the hierarchical menu) runs over a
    store: an object is a location, and two references to one location see
    the same properties. *)
Module Store.
Import JS.

Definition loc := nat.

(** A value in the store: a primitive, or a reference to an object. *)
Inductive hval : Type :=
| Prim (v : jsval)
| Ref (l : loc).

Definition obj := list (string * hval).
Definition heap := list obj.

Definition read (h : heap) (l : loc) : obj := nth l h [].

Fixpoint write (h : heap) (l : loc) (o : obj) : heap :=
  match h, l with
  | [], _ => []
  | _ :: r, O => o :: r
  | x :: r, S n => x :: write r n o
  end.

Definition alloc (h : heap) (o : obj) : heap * hval :=
  ((h ++ [o])%list, Ref (length h)).

(** A plain value placed in the store, one fresh object per object of the
    value. *)
Fixpoint load (v : jsval) (h : heap) : heap * hval :=
  match v with
  | VObj ps =>
      let fix fields (ps : list (string * jsval)) (h : heap) : heap * obj :=
        match ps with
        | [] => (h, [])
        | (k, x) :: r =>
            let '(h1, x') := load x h in
            let '(h2, r') := fields r h1 in
            (h2, (k, x') :: r')
        end in
      let '(h', o) := fields ps h in
      alloc h' o
  | _ => (h, Prim v)
  end.

(** The plain value a store value stands for, read through at most [fuel]
    references. *)
Fixpoint reify (fuel : nat) (h : heap) (v : hval) : jsval :=
  match v with
  | Prim p => p
  | Ref l =>
      match fuel with
      | O => VUndef
      | S n => VObj (map (fun kv => (fst kv, reify n h (snd kv))) (read h l))
      end
  end.

Definition truthy (v : hval) : bool :=
  match v with
  | Prim p => JS.truthy p
  | Ref _ => true
  end.

(** [v[k]]. *)
Definition get (h : heap) (v : hval) (k : string) : result hval :=
  match v with
  | Prim p => x <- JS.get p k ;; Ok (Prim x)
  | Ref l => Ok match lookup k (read h l) with Some x => x | None => Prim VUndef end
  end.

(** lodash [baseGet]: the value a path of keys leads to, [undefined] when
    it leads nowhere. *)
Fixpoint baseGet (h : heap) (object : hval) (p : list string) : hval :=
  match p with
  | [] => object
  | k :: r =>
      match object with
      | Ref l =>
          match lookup k (read h l) with
          | Some x => baseGet h x r
          | None => Prim VUndef
          end
      | Prim v =>
          match get_own v k with
          | Some x => baseGet h (Prim x) r
          | None => Prim VUndef
          end
      end
  end.

(** [_.unset(object, [k1, ..., kn])]: deletes [kn] from the object that
    [k1 ... k(n-1)] leads to, in place.  The keys of an array path are
    taken as they are, dots included. *)
Definition unset (h : heap) (object : hval) (p : list string) : heap :=
  match baseGet h object (removelast p) with
  | Ref l => write h l (remove_key (last p "undefined") (read h l))
  | Prim _ => h
  end.

(** [_.omit(object, k)] for a key without dots: a new object with the other
    own properties of [object]; the copy is shallow, so nested objects are
    shared with [object]. *)
Definition omit (h : heap) (object : hval) (k : string) : heap * hval :=
  match object with
  | Ref l => alloc h (remove_key k (read h l))
  | Prim v => alloc h (map (fun kv => (fst kv, Prim (snd kv))) (remove_key k (own_props v)))
  end.

(** [_.isEmpty]. *)
Definition isEmpty (h : heap) (v : hval) : bool :=
  match v with
  | Prim p => Lodash.isEmpty p
  | Ref l =>
      match read h l with
      | [] => true
      | _ :: _ => false
      end
  end.

End Store.

(* ===================================================================== *)
(** ** The query-parameters builder *)
(* ===================================================================== *)

Module SearchParameters.
Import JS.

(** The declaration of a hierarchical facet. *)
Record HierarchicalFacet : Type := {
  name : jsval;
  attributes : list string;
  separator : jsval;
  rootPath : jsval;
  showParentLevel : jsval
}.

(** Modelled from the spec: the query-parameters builder, which is the
    [SearchParameters] class of the algoliasearch-helper package; the
    connectors import it and its code is not among the sources.  It is
    immutable-functional (every mutator returns a new builder) and offers:
    adding a disjunctive facet, adding a numeric comparison refinement,
    declaring a hierarchical facet, toggling the active path of a
    hierarchical facet, reading that path back, and setting the index. *)
Record t : Type := {
  index : jsval;
  disjunctiveFacets : list string;
  numericRefinements : list (string * string * jsval);
  hierarchicalFacets : list HierarchicalFacet;
  hierarchicalFacetsRefinements : list (string * list jsval)
}.

(** Modelled from the spec: [new SearchParameters({hierarchicalFacets})], a
    builder that declares these facets and refines nothing. *)
Definition make (facets : list HierarchicalFacet) : t :=
  {| index := VStr "";
     disjunctiveFacets := [];
     numericRefinements := [];
     hierarchicalFacets := facets;
     hierarchicalFacetsRefinements := [] |}.

(** Modelled from the spec: setting the target index name. *)
Definition setIndex (i : jsval) (sp : t) : t :=
  {| index := i;
     disjunctiveFacets := disjunctiveFacets sp;
     numericRefinements := numericRefinements sp;
     hierarchicalFacets := hierarchicalFacets sp;
     hierarchicalFacetsRefinements := hierarchicalFacetsRefinements sp |}.

(** Modelled from the spec: adding a disjunctive facet by name. *)
Definition addDisjunctiveFacet (facet : string) (sp : t) : t :=
  {| index := index sp;
     disjunctiveFacets := (disjunctiveFacets sp ++ [facet])%list;
     numericRefinements := numericRefinements sp;
     hierarchicalFacets := hierarchicalFacets sp;
     hierarchicalFacetsRefinements := hierarchicalFacetsRefinements sp |}.

(** Modelled from the spec: adding a numeric comparison refinement. *)
Definition addNumericRefinement (attribute operator : string) (v : jsval) (sp : t) : t :=
  {| index := index sp;
     disjunctiveFacets := disjunctiveFacets sp;
     numericRefinements := (numericRefinements sp ++ [(attribute, operator, v)])%list;
     hierarchicalFacets := hierarchicalFacets sp;
     hierarchicalFacetsRefinements := hierarchicalFacetsRefinements sp |}.

(** Modelled from the spec: declaring a hierarchical facet. *)
Definition addHierarchicalFacet (facet : HierarchicalFacet) (sp : t) : t :=
  {| index := index sp;
     disjunctiveFacets := disjunctiveFacets sp;
     numericRefinements := numericRefinements sp;
     hierarchicalFacets := (hierarchicalFacets sp ++ [facet])%list;
     hierarchicalFacetsRefinements := hierarchicalFacetsRefinements sp |}.

(** Modelled from the spec: reading back the refinement of the facet [id],
    a list of no or one active path. *)
Definition getHierarchicalRefinement (id : jsval) (sp : t) : list jsval :=
  match lookup (to_string id) (hierarchicalFacetsRefinements sp) with
  | Some l => l
  | None => []
  end.

(** Modelled from the spec: the toggle of a hierarchical path, in the words
    of the spec: exactly one active path; toggling an already-active path
    clears it; toggling a different path replaces it. *)
Definition toggleHierarchicalFacetRefinement (id value : jsval) (sp : t) : t :=
  let next :=
    match getHierarchicalRefinement id sp with
    | active :: _ => if strict_eqb active value then [] else [value]
    | [] => [value]
    end in
  {| index := index sp;
     disjunctiveFacets := disjunctiveFacets sp;
     numericRefinements := numericRefinements sp;
     hierarchicalFacets := hierarchicalFacets sp;
     hierarchicalFacetsRefinements :=
       set_key (to_string id) next (hierarchicalFacetsRefinements sp) |}.

End SearchParameters.

(* ===================================================================== *)
(** ** The host context *)
(* ===================================================================== *)

(** [this.context]: the main index of the application, and the index this
    widget targets when it sits under a multi-index component. *)
Record context : Type := {
  mainTargettedIndex : string;        (* context.ais.mainTargettedIndex *)
  multiIndexContext : option string   (* context.multiIndexContext.targettedIndex *)
}.

(* ===================================================================== *)
(** ** connectHierarchicalMenu.js *)
(* ===================================================================== *)

Module HierarchicalMenu.
Import JS Lodash.

Record props : Type := {
  id : jsval;
  attributes : list string;
  separator : jsval;
  rootPath : jsval;
  showParentLevel : jsval;
  defaultRefinement : jsval
}.

(** [props.attributes[0]], used as a property key. *)
Definition getId (p : props) : string :=
  match attributes p with
  | a :: _ => a
  | [] => "undefined"
  end.

Definition namespace : string := "hierarchicalMenu".

Definition getIndex (c : context) : string :=
  match multiIndexContext c with
  | Some targettedIndex => targettedIndex
  | None => mainTargettedIndex c
  end.

Definition hasMultipleIndex (c : context) : bool :=
  match multiIndexContext c with
  | Some _ => true
  | None => false
  end.

Definition getCurrentRefinement (p : props) (searchState : jsval) (c : context)
  : result jsval :=
  let id := getId p in
  let index := getIndex c in
  let refinements :=
    (hasMultipleIndex c && has_keys searchState ["indices"; index; namespace; id])
    || (negb (hasMultipleIndex c) && has_keys searchState [namespace; id]) in
  if refinements then
    subState <-
      (if hasMultipleIndex c then
         indices <- get searchState "indices" ;;
         atIndex <- get indices index ;;
         get atIndex namespace
       else get searchState namespace) ;;
    v <- get subState id ;;
    if is_empty_string v then Ok VNull else Ok v
  else if truthy (defaultRefinement p) then Ok (defaultRefinement p)
  else Ok VNull.

Definition getValue (path : string) (p : props) (searchState : jsval) (c : context)
  : result jsval :=
  currentRefinement <- getCurrentRefinement p searchState c ;;
  if is_null currentRefinement then Ok (VStr path)
  else
    let tmpSearchParameters :=
      SearchParameters.make
        [ {| SearchParameters.name := id p;
             SearchParameters.attributes := attributes p;
             SearchParameters.separator := separator p;
             SearchParameters.rootPath := rootPath p;
             SearchParameters.showParentLevel := showParentLevel p |} ] in
    Ok (hd VUndef
          (SearchParameters.getHierarchicalRefinement (id p)
             (SearchParameters.toggleHierarchicalFacetRefinement (id p) (VStr path)
                (SearchParameters.toggleHierarchicalFacetRefinement (id p) currentRefinement
                   tmpSearchParameters)))).

Definition refine (p : props) (searchState nextRefinement : jsval) (c : context)
  : result jsval :=
  let id := getId p in
  let nextValue :=
    VObj [(id, if truthy nextRefinement then nextRefinement else VStr "")] in
  let index := getIndex c in
  if hasMultipleIndex c then
    state <-
      (if has searchState ("indices." ++ index) then
         indices <- get searchState "indices" ;;
         atIndex <- get indices index ;;
         ns <- get atIndex namespace ;;
         Ok (VObj (set_key index
                     (VObj [(namespace, VObj (spread (spread [] ns) nextValue))])
                     (spread [] indices)))
       else
         indices <- get searchState "indices" ;;
         Ok (VObj (spread (spread [] indices)
                     (VObj [(index, VObj [(namespace, nextValue)])])))) ;;
    Ok (VObj (set_key "indices" state (spread [] searchState)))
  else
    ns <- get searchState namespace ;;
    Ok (VObj (set_key namespace (VObj (spread (spread [] ns) nextValue))
                (spread [] searchState))).

(** [cleanUp] calls [unset] on its argument, so it runs over the store:
    [searchState] is a reference, the result is the store after the call and
    the value returned. *)
Definition cleanUp (p : props) (searchState : Store.hval) (c : context) (h : Store.heap)
  : result (Store.heap * Store.hval) :=
  let index := getIndex c in
  multi <-
    (if hasMultipleIndex c then
       indices <- Store.get h searchState "indices" ;; Ok (Store.truthy indices)
     else Ok false) ;;
  let prefix := if multi : bool then "indices." ++ index ++ "." ++ namespace else namespace in
  let h := Store.unset h searchState [prefix; getId p] in
  ns <- Store.get h searchState namespace ;;
  if Store.isEmpty h ns then Ok (Store.omit h searchState namespace)
  else Ok (h, searchState).

(** The props that only the rendering reads. *)
Record display : Type := {
  showMore : bool;
  limitMin : nat;
  limitMax : nat
}.

(** A node of the facet values the results return: [data] holds the
    children, when the node has any. *)
#[warnings="-register-all"]
Inductive facetValue : Type :=
| FacetValue (name : string) (path : string) (count : Z) (isRefined : bool)
    (data : option (list facetValue)).

(** An item as [getProvidedProps] hands it to the widget. *)
#[warnings="-register-all"]
Inductive item : Type :=
| Item (label : string) (value : jsval) (count : Z) (isRefined : bool)
    (items : option (list item)).

Definition item_label (i : item) : string := let 'Item l _ _ _ _ := i in l.
Definition item_value (i : item) : jsval := let 'Item _ v _ _ _ := i in v.
Definition item_items (i : item) : option (list item) := let 'Item _ _ _ _ l := i in l.
Definition facet_name (v : facetValue) : string := let 'FacetValue n _ _ _ _ := v in n.
Definition facet_path (v : facetValue) : string := let 'FacetValue _ p _ _ _ := v in p.
Definition facet_data (v : facetValue) : option (list facetValue) :=
  let 'FacetValue _ _ _ _ d := v in d.

(** The function [transformValue] maps over the slice: one node to one
    item, its children sliced and mapped in turn. *)
Fixpoint transformNode (limit : nat) (p : props) (searchState : jsval) (c : context)
  (v : facetValue) : result item :=
  match v with
  | FacetValue name path count isRefined data =>
      value <- getValue path p searchState c ;;
      items <-
        match data with
        | Some children =>
            r <- sliceMap (transformNode limit p searchState c) children limit ;;
            Ok (Some r)
        | None => Ok None
        end ;;
      Ok (Item name value count isRefined items)
  end.

Definition transformValue (value : list facetValue) (limit : nat) (p : props)
  (searchState : jsval) (c : context) : result (list item) :=
  sliceMap (transformNode limit p searchState c) value limit.

(** The results of one index, as far as the connector reads them: whether
    the facet is present, and the [data] of its values. *)
Record SearchResults : Type := {
  getFacetByName : string -> bool;
  getFacetValues : string -> option (list facetValue)
}.

(** [searchResults.results], absent or keyed by index name. *)
Definition searchResults := option (string -> option SearchResults).

Record providedProps : Type := {
  provided_items : list item;
  currentRefinement : jsval;
  canRefine : bool
}.

(** The results of the targeted index in which the facet is present. *)
Definition facetResults (sr : searchResults) (index id : string) : option SearchResults :=
  match sr with
  | Some results =>
      match results index with
      | Some r => if getFacetByName r id then Some r else None
      | None => None
      end
  | None => None
  end.

(** [props.showMore] and the limits come in [d], and [props.transformItems]
    is an argument of its own. *)
Definition getProvidedProps (p : props) (d : display)
  (transformItems : option (list item -> list item))
  (searchState : jsval) (sr : searchResults) (c : context) : result providedProps :=
  let id := getId p in
  let index := getIndex c in
  match facetResults sr index id with
  | None =>
      cur <- getCurrentRefinement p searchState c ;;
      Ok {| provided_items := []; currentRefinement := cur; canRefine := false |}
  | Some r =>
      let limit := if showMore d then limitMax d else limitMin d in
      items <-
        match getFacetValues r id with
        | Some data => transformValue data limit p searchState c
        | None => Ok []
        end ;;
      cur <- getCurrentRefinement p searchState c ;;
      Ok {| provided_items :=
              match transformItems with
              | Some f => f items
              | None => items
              end;
            currentRefinement := cur;
            canRefine := (0 <? Z.of_nat (List.length items)) |}
  end.

(** An entry of the metadata: [value] is the function that clears the
    refinement in a state. *)
Record metadataItem : Type := {
  meta_label : string;
  meta_attributeName : string;
  meta_value : jsval -> result jsval;
  meta_currentRefinement : jsval
}.

Definition getMetadata (p : props) (searchState : jsval) (c : context)
  : result (string * list metadataItem) :=
  let rootAttribute := getId p in
  let id := getId p in
  currentRefinement <- getCurrentRefinement p searchState c ;;
  Ok (id,
      if negb (truthy currentRefinement) then []
      else [ {| meta_label := rootAttribute ++ ": " ++ to_string currentRefinement;
                meta_attributeName := rootAttribute;
                meta_value := fun nextState => refine p nextState (VStr "") c;
                meta_currentRefinement := currentRefinement |} ]).

End HierarchicalMenu.

(* ===================================================================== *)
(** ** connectMultiRange.js *)
(* ===================================================================== *)

Module MultiRange.
Import JS Lodash.

(** The two bounds of a range: [{start, end}]. *)
Record range : Type := mkRange {
  start : jsval;
  end_ : jsval
}.

(** An item of [props.items]: a label and the two bounds. *)
Record item : Type := mkItem {
  label : jsval;
  bounds : range
}.

(** An item as [getProvidedProps] hands it to the widget. *)
Record providedItem : Type := mkProvidedItem {
  item_label : jsval;
  value : string;
  isRefined : bool;
  noRefinement : bool
}.

Record props : Type := {
  attributeName : string;
  items : list item;
  defaultRefinement : jsval;
  transformItems : option (list providedItem -> list providedItem)
}.

(** Facet statistics. *)
Record stats : Type := {
  min : num;
  max : num
}.

(** The results of one index, as far as the connector reads them:
    whether the facet is present, and its statistics if any. *)
Record SearchResults : Type := {
  getFacetByName : string -> bool;
  getFacetStats : string -> option stats
}.

(** [searchResults.results], absent or keyed by index name. *)
Definition searchResults := option (string -> option SearchResults).

Record providedProps : Type := {
  provided_items : list providedItem;
  currentRefinement : jsval;
  canRefine : bool
}.

Definition stringifyItem (i : range) : string :=
  if is_undefined (start i) && is_undefined (end_ i) then ""
  else
    (if truthy (start i) then to_string (start i) else "")
    ++ ":" ++
    (if truthy (end_ i) then to_string (end_ i) else "").

(** [startStr.length > 0 ? parseInt(startStr, 10) : null]; reading [length]
    of a missing half throws. *)
Definition parseHalf (half : option string) : result jsval :=
  match half with
  | None => Throw TypeError
  | Some str => Ok (if (0 <? Z.of_nat (String.length str)) then VNum (parseInt str) else VNull)
  end.

Definition parseItem (v : jsval) : result range :=
  match v with
  | VStr value =>
      if (Z.of_nat (String.length value) =? 0) then Ok (mkRange VNull VNull)
      else
        let parts := split ":" value in
        s <- parseHalf (nth_error parts 0) ;;
        e <- parseHalf (nth_error parts 1) ;;
        Ok (mkRange s e)
  | VObj ps =>
      (* an object passes the length test only with a [length] of 0, and
         has no [split] method otherwise *)
      match lookup "length" ps with
      | Some (VNum (Int 0)) => Ok (mkRange VNull VNull)
      | _ => Throw TypeError
      end
  | _ => Throw TypeError
  end.

Definition namespace : string := "multiRange".

Definition getId (p : props) : string := attributeName p.

Definition getIndex (c : context) : string :=
  match multiIndexContext c with
  | Some targettedIndex => targettedIndex
  | None => mainTargettedIndex c
  end.

Definition hasMultipleIndex (c : context) : bool :=
  match multiIndexContext c with
  | Some _ => true
  | None => false
  end.

Definition getCurrentRefinement (p : props) (searchState : jsval) (c : context)
  : result jsval :=
  let id := getId p in
  let index := getIndex c in
  let refinements :=
    (hasMultipleIndex c
     && has searchState ("indices." ++ index ++ "." ++ namespace ++ "." ++ id))
    || (negb (hasMultipleIndex c) && has searchState (namespace ++ "." ++ id)) in
  if refinements then
    subState <-
      (if hasMultipleIndex c then
         indices <- get searchState "indices" ;;
         atIndex <- get indices index ;;
         get atIndex namespace
       else get searchState namespace) ;;
    v <- get subState id ;;
    if is_empty_string v then Ok (VStr "") else Ok v
  else if truthy (defaultRefinement p) then Ok (defaultRefinement p)
  else Ok (VStr "").

Definition isRefinementsRangeIncludesInsideItemRange (st : stats) (start end_ : num) : bool :=
  (num_gtb (min st) start && num_ltb (min st) end_)
  || (num_gtb (max st) start && num_ltb (max st) end_).

Definition isItemRangeIncludedInsideRefinementsRange (st : stats) (start end_ : num) : bool :=
  (num_gtb start (min st) && num_ltb start (max st))
  || (num_gtb end_ (min st) && num_ltb end_ (max st)).

(** The flag this function returns is stored as [noRefinement]: it is true
    when the bucket cannot refine the results. *)
Definition itemHasRefinement (attributeName : string) (results : SearchResults)
  (value : string) : bool :=
  let stats :=
    if getFacetByName results attributeName then getFacetStats results attributeName
    else None in
  let range := split ":" value in
  let start :=
    if num_eqb (Number_of_elem (nth_error range 0)) (Int 0) || (value =? "")%string
    then NegInf else Number_of_elem (nth_error range 0) in
  let end_ :=
    if num_eqb (Number_of_elem (nth_error range 1)) (Int 0) || (value =? "")%string
    then PosInf else Number_of_elem (nth_error range 1) in
  negb (match stats with
        | Some st =>
            isRefinementsRangeIncludesInsideItemRange st start end_
            || isItemRangeIncludedInsideRefinementsRange st start end_
        | None => false
        end).

Definition refine (p : props) (searchState nextRefinement : jsval) (c : context)
  : result jsval :=
  let nextValue := VObj [(getId p, nextRefinement)] in
  let index := getIndex c in
  if hasMultipleIndex c then
    state <-
      (if has searchState ("indices." ++ index) then
         indices <- get searchState "indices" ;;
         atIndex <- get indices index ;;
         ns <- get atIndex namespace ;;
         Ok (VObj (set_key index
                     (VObj [(namespace, VObj (spread (spread [] ns) nextValue))])
                     (spread [] indices)))
       else
         indices <- get searchState "indices" ;;
         Ok (VObj (spread (spread [] indices)
                     (VObj [(index, VObj [(namespace, nextValue)])])))) ;;
    Ok (VObj (set_key "indices" state (spread [] searchState)))
  else
    ns <- get searchState namespace ;;
    Ok (VObj (set_key namespace (VObj (spread (spread [] ns) nextValue))
                (spread [] searchState))).

Definition cleanUp (p : props) (searchState : jsval) (c : context) : result jsval :=
  let index := getIndex c in
  multi <-
    (if hasMultipleIndex c then
       indices <- get searchState "indices" ;; Ok (truthy indices)
     else Ok false) ;;
  let prefix := if multi : bool then "indices." ++ index ++ "." ++ namespace else namespace in
  let cleanState := omit searchState (prefix ++ "." ++ getId p) in
  ns <- get cleanState namespace ;;
  if isEmpty ns then Ok (omit cleanState namespace)
  else Ok cleanState.

(** The results of the targeted index, when there are any:
    [searchResults.results && searchResults.results[index]]. *)
Definition resultsAt (sr : searchResults) (index : string) : option SearchResults :=
  match sr with
  | Some results => results index
  | None => None
  end.

(** The local [items] of [getProvidedProps] once the [All] item has been
    pushed, before [transformItems] is applied. *)
Definition derivedItems (p : props) (currentRefinement : jsval) (sr : searchResults)
  (c : context) : list providedItem :=
  let attributeName := attributeName p in
  let index := getIndex c in
  let items :=
    map (fun i =>
           let value := stringifyItem (bounds i) in
           {| item_label := label i;
              value := value;
              isRefined := eq_string currentRefinement value;
              noRefinement :=
                match resultsAt sr index with
                | Some results => itemHasRefinement (getId p) results value
                | None => false
                end |})
        (items p) in
  let stats :=
    match resultsAt sr index with
    | Some results =>
        if getFacetByName results attributeName then getFacetStats results attributeName
        else None
    | None => None
    end in
  let refinedItem := find items (fun i => Bool.eqb (isRefined i) true) in
  if negb (existsb (fun i => (value i =? "")%string) items) then
    (items ++
       [ {| item_label := VStr "All";
            value := "";
            isRefined := match refinedItem with Some _ => false | None => true end;
            noRefinement := match stats with Some _ => false | None => true end |} ])%list
  else items.

Definition getProvidedProps (p : props) (searchState : jsval) (sr : searchResults)
  (c : context) : result providedProps :=
  currentRefinement <- getCurrentRefinement p searchState c ;;
  let items := derivedItems p currentRefinement sr c in
  Ok {| provided_items :=
          match transformItems p with
          | Some f => f items
          | None => items
          end;
        currentRefinement := currentRefinement;
        canRefine :=
          (0 <? Z.of_nat (List.length items))
          && existsb (fun i => Bool.eqb (noRefinement i) false) items |}.

Definition getSearchParameters (searchParameters : SearchParameters.t) (p : props)
  (searchState : jsval) (c : context) : result SearchParameters.t :=
  let attributeName := attributeName p in
  cur <- getCurrentRefinement p searchState c ;;
  r <- parseItem cur ;;
  let searchParameters := SearchParameters.addDisjunctiveFacet attributeName searchParameters in
  let searchParameters :=
    if truthy (start r)
    then SearchParameters.addNumericRefinement attributeName ">=" (start r) searchParameters
    else searchParameters in
  let searchParameters :=
    if truthy (end_ r)
    then SearchParameters.addNumericRefinement attributeName "<=" (end_ r) searchParameters
    else searchParameters in
  Ok searchParameters.

(** An entry of the metadata: [value] is the function that clears the
    refinement in a state. *)
Record metadataItem : Type := {
  meta_label : string;
  meta_attributeName : string;
  meta_currentRefinement : jsval;
  meta_value : jsval -> result jsval
}.

(** Destructuring [{label}] out of the result of [find] throws when no item
    was found. *)
Definition getMetadata (p : props) (searchState : jsval) (c : context)
  : result (string * list metadataItem) :=
  let id := getId p in
  value <- getCurrentRefinement p searchState c ;;
  if negb (is_empty_string value) then
    match find (items p) (fun i => eq_string value (stringifyItem (bounds i))) with
    | Some i =>
        Ok (id,
            [ {| meta_label := attributeName p ++ ": " ++ to_string (label i);
                 meta_attributeName := attributeName p;
                 meta_currentRefinement := label i;
                 meta_value := fun nextState => refine p nextState (VStr "") c |} ])
    | None => Throw TypeError
    end
  else Ok (id, []).

End MultiRange.

(* ===================================================================== *)
(** ** connectSortBy.js *)
(* ===================================================================== *)

Module SortBy.
Import JS Lodash.

Record props : Type := {
  defaultRefinement : jsval
}.

Definition getId : string := "sortBy".

(** The targeted index, [undefined] outside a multi-index component. *)
Definition getIndex (c : context) : option string := multiIndexContext c.

(** An index, possibly [undefined], printed inside a path or used as a
    key. *)
Definition index_key (index : option string) : string :=
  match index with
  | Some i => i
  | None => "undefined"
  end.

(** [!index]. *)
Definition no_index (index : option string) : bool :=
  match index with
  | Some i => (i =? "")%string
  | None => true
  end.

Definition getCurrentRefinement (p : props) (searchState : jsval) (index : option string)
  : result jsval :=
  let id := getId in
  if has searchState ("indices." ++ index_key index ++ "." ++ id) then
    indices <- get searchState "indices" ;;
    atIndex <- get indices (index_key index) ;;
    get atIndex id
  else
    stored <- (if no_index index then get searchState id else Ok VUndef) ;;
    if no_index index && truthy stored then Ok stored
    else if truthy (defaultRefinement p) then Ok (defaultRefinement p)
    else Ok VNull.

Definition refine (p : props) (searchState nextRefinement : jsval) (c : context) : jsval :=
  let id := getId in
  let sortByState :=
    match multiIndexContext c with
    | Some targettedIndex =>
        VObj [("indices", VObj [(targettedIndex, VObj [(id, nextRefinement)])])]
    | None => VObj [(id, nextRefinement)]
    end in
  VObj (spread (spread [] searchState) sortByState).

Definition cleanUp (p : props) (searchState : jsval) (c : context) : result jsval :=
  match multiIndexContext c with
  | Some index =>
      indices <- get searchState "indices" ;;
      if truthy indices then
        atIndex <- get indices index ;;
        Ok (VObj (spread (spread [] searchState)
                    (VObj [("indices", VObj [(index, omit atIndex getId)])])))
      else Ok (omit searchState getId)
  | None => Ok (omit searchState getId)
  end.

Definition getSearchParameters (searchParameters : SearchParameters.t) (p : props)
  (searchState : jsval) (c : context) : result SearchParameters.t :=
  selectedIndex <- getCurrentRefinement p searchState (getIndex c) ;;
  Ok (SearchParameters.setIndex selectedIndex searchParameters).

(** An item of [props.items]: [{value, label}]. *)
Record item : Type := mkItem {
  label : jsval;
  value : string
}.

(** An item as [getProvidedProps] hands it to the widget:
    [{...item, isRefined}]. *)
Record providedItem : Type := mkProvidedItem {
  provided : item;
  isRefined : bool
}.

Record providedProps : Type := {
  provided_items : list providedItem;
  currentRefinement : jsval
}.

(** [props.items] and [props.transformItems] are arguments of their own
    here. *)
Definition getProvidedProps (p : props) (items : list item)
  (transformItems : option (list providedItem -> list providedItem))
  (searchState : jsval) (c : context) : result providedProps :=
  currentRefinement <- getCurrentRefinement p searchState (getIndex c) ;;
  let items :=
    map (fun i =>
           if eq_string currentRefinement (value i)
           then mkProvidedItem i true else mkProvidedItem i false)
        items in
  Ok {| provided_items :=
          match transformItems with
          | Some f => f items
          | None => items
          end;
        currentRefinement := currentRefinement |}.

End SortBy.

(* ===================================================================== *)
(** ** Vocabulary of the statements *)
(* ===================================================================== *)

Import JS Lodash.

(** The position of a widget's entry in the search state: under its
    namespace, and under [indices.<index>] in a multi-index context. *)
Definition statePath (c : context) (namespace id : string) : path :=
  match multiIndexContext c with
  | Some index => ["indices"; index; namespace; id]
  | None => [namespace; id]
  end.

(** The value stored at a path of keys, if every key is present. *)
Fixpoint get_path (v : jsval) (p : path) : option jsval :=
  match p with
  | [] => None
  | k :: rest =>
      match lookup k (own_props v) with
      | Some x =>
          match rest with
          | [] => Some x
          | _ :: _ => get_path x rest
          end
      | None => None
      end
  end.

(** The value a path of keys leads to through own properties, as
    [hasOwnProperty] and the property reads see them: the same as
    [get_path], except that a string met on the way also has its
    [length]. *)
Fixpoint get_own_path (v : jsval) (p : path) : option jsval :=
  match p with
  | [] => None
  | k :: rest =>
      match get_own v k with
      | Some x =>
          match rest with
          | [] => Some x
          | _ :: _ => get_own_path x rest
          end
      | None => None
      end
  end.

(** A key that lodash reads as one key inside a dotted path. *)
Definition plain_key (k : string) : bool :=
  negb (contains "." k) && negb (contains "[" k) && negb (contains "]" k).


(** The decoding of one half of a range, in the words of the spec: an
    integer if the half is not empty, else null. *)
Definition decodeHalf (half : string) : jsval :=
  if (half =? "")%string then VNull else VNum (parseInt half).

(** The numeric refinement [getSearchParameters] sends for a bound. *)
Definition sent (attributeName operator : string) (bound : jsval)
  : list (string * string * jsval) :=
  if truthy bound then [(attributeName, operator, bound)] else [].

(** The value of a run of decimal digits read after [acc]. *)
Fixpoint uint_value (acc : Z) (d : Decimal.uint) : Z :=
  match d with
  | Decimal.Nil => acc
  | Decimal.D0 l => uint_value (10 * acc + 0) l
  | Decimal.D1 l => uint_value (10 * acc + 1) l
  | Decimal.D2 l => uint_value (10 * acc + 2) l
  | Decimal.D3 l => uint_value (10 * acc + 3) l
  | Decimal.D4 l => uint_value (10 * acc + 4) l
  | Decimal.D5 l => uint_value (10 * acc + 5) l
  | Decimal.D6 l => uint_value (10 * acc + 6) l
  | Decimal.D7 l => uint_value (10 * acc + 7) l
  | Decimal.D8 l => uint_value (10 * acc + 8) l
  | Decimal.D9 l => uint_value (10 * acc + 9) l
  end.

(** [v ?? null]. *)
Definition coalesce_null (v : jsval) : jsval :=
  match v with
  | VUndef => VNull
  | _ => v
  end.

(** A bound that is absent, or a safe integer (one below [2^53] in
    magnitude) other than 0. *)
Definition is_nonzero_bound (v : jsval) : bool :=
  match v with
  | VUndef | VNull => true
  | VNum (Int z) => negb (z =? 0) && safe_integer z
  | _ => false
  end.

(** The dotted string the multi range hands to [has]. *)
Definition multiRange_dotted (c : context) (id : string) : string :=
  match multiIndexContext c with
  | Some index => "indices." ++ index ++ "." ++ MultiRange.namespace ++ "." ++ id
  | None => MultiRange.namespace ++ "." ++ id
  end.

(** An object that holds each of its keys once. *)
Fixpoint distinct_keys {A} (ps : list (string * A)) : bool :=
  match ps with
  | [] => true
  | (k, _) :: r => negb (existsb (String.eqb k) (map fst r)) && distinct_keys r
  end.

(** Strings that are pairwise different. *)
Fixpoint distinct_strings (l : list string) : bool :=
  match l with
  | [] => true
  | s :: r => negb (existsb (String.eqb s) r) && distinct_strings r
  end.

(** The integer a bound of a bucket holds, if it holds one. *)
Definition bound_value (v : jsval) : option Z :=
  match v with
  | VNum (Int z) => Some z
  | _ => None
  end.

(** [x] lies strictly inside the bucket from [lo] to [hi]; a missing bound
    does not limit the bucket on its side. *)
Definition strictly_inside (lo hi : option Z) (x : Z) : Prop :=
  match lo with Some l => l < x | None => True end
  /\ match hi with Some h => x < h | None => True end.

(** The bound [y] of a bucket lies strictly between [m] and [M]; a missing
    bound lies nowhere. *)
Definition strictly_between (m M : Z) (y : option Z) : Prop :=
  match y with
  | Some y => m < y /\ y < M
  | None => False
  end.

(** The lower and the upper end of a bucket: an absent bound is an
    infinity. *)
Definition lower_end (bound : jsval) : num :=
  match bound with
  | VNum n => n
  | _ => NegInf
  end.

Definition upper_end (bound : jsval) : num :=
  match bound with
  | VNum n => n
  | _ => PosInf
  end.

(** Whether no character of [s] is white space. *)
Fixpoint no_space (s : string) : bool :=
  match s with
  | EmptyString => true
  | String c r => negb (is_space c) && no_space r
  end.

(** Whether no level of a derived item holds more than [limit] items. *)
Fixpoint within_limit (limit : nat) (i : HierarchicalMenu.item) : bool :=
  match i with
  | HierarchicalMenu.Item _ _ _ _ (Some l) =>
      (List.length l <=? limit)%nat && forallb (within_limit limit) l
  | HierarchicalMenu.Item _ _ _ _ None => true
  end.

(** The relation between a node and the item derived for it. *)
Definition derived_from (limit : nat) (p : HierarchicalMenu.props) (st : jsval)
  (c : context) (v : HierarchicalMenu.facetValue) (i : HierarchicalMenu.item) : Prop :=
  HierarchicalMenu.item_label i = HierarchicalMenu.facet_name v
  /\ within_limit limit i = true
  /\ (HierarchicalMenu.getCurrentRefinement p st c = Ok VNull ->
      HierarchicalMenu.item_value i = VStr (HierarchicalMenu.facet_path v)).

(* ===================================================================== *)
(** ** Inputs of the examples *)
(* ===================================================================== *)

Definition single_index : context :=
  {| mainTargettedIndex := "index"; multiIndexContext := None |}.

Definition multi_index : context :=
  {| mainTargettedIndex := "index"; multiIndexContext := Some "first" |}.

(** Results whose every facet has the statistics [{min: 10, max: 20}]. *)
Definition example_results : MultiRange.SearchResults :=
  {| MultiRange.getFacetByName := fun _ => true;
     MultiRange.getFacetStats :=
       fun _ => Some {| MultiRange.min := Int 10; MultiRange.max := Int 20 |} |}.

(** A hierarchical menu on the attribute [cat]. *)
Definition menu_props (defaultRefinement : jsval) : HierarchicalMenu.props :=
  {| HierarchicalMenu.id := VUndef;
     HierarchicalMenu.attributes := ["cat"];
     HierarchicalMenu.separator := VStr " > ";
     HierarchicalMenu.rootPath := VNull;
     HierarchicalMenu.showParentLevel := VBool true;
     HierarchicalMenu.defaultRefinement := defaultRefinement |}.

(** A hierarchical menu on another attribute, without default. *)
Definition menu_on (attribute : string) : HierarchicalMenu.props :=
  {| HierarchicalMenu.id := VUndef;
     HierarchicalMenu.attributes := [attribute];
     HierarchicalMenu.separator := VStr " > ";
     HierarchicalMenu.rootPath := VNull;
     HierarchicalMenu.showParentLevel := VBool true;
     HierarchicalMenu.defaultRefinement := VUndef |}.

(** A multi range on another attribute, without items or default. *)
Definition range_on (attribute : string) : MultiRange.props :=
  {| MultiRange.attributeName := attribute;
     MultiRange.items := [];
     MultiRange.defaultRefinement := VUndef;
     MultiRange.transformItems := None |}.

(** The number [1e21], from which on a number prints in exponent form. *)
Definition ten_to_21 : Z := 10 ^ 21.

(** A multi range on the attribute [price]. *)
Definition range_props (items : list MultiRange.item) (defaultRefinement : jsval)
  : MultiRange.props :=
  {| MultiRange.attributeName := "price";
     MultiRange.items := items;
     MultiRange.defaultRefinement := defaultRefinement;
     MultiRange.transformItems := None |}.

(** The buckets [10:20] and [5:15]. *)
Definition two_buckets : list MultiRange.item :=
  [ MultiRange.mkItem (VStr "10 to 20")
      (MultiRange.mkRange (VNum (Int 10)) (VNum (Int 20)));
    MultiRange.mkItem (VStr "5 to 15")
      (MultiRange.mkRange (VNum (Int 5)) (VNum (Int 15))) ].

(** [{<namespace>: {<id>: <v>}}]. *)
Definition one_entry (namespace id : string) (v : jsval) : jsval :=
  VObj [(namespace, VObj [(id, v)])].

(** [{indices: {first: {<namespace>: {<id>: <v>}}}}]. *)
Definition one_entry_under_first (namespace id : string) (v : jsval) : jsval :=
  VObj [("indices", VObj [("first", one_entry namespace id v)])].

(** The states above placed in an empty store. *)
Definition menu_store : Store.heap * Store.hval :=
  Store.load (one_entry "hierarchicalMenu" "cat" (VStr "a")) [].

Definition two_menus_store : Store.heap * Store.hval :=
  Store.load
    (VObj [("hierarchicalMenu", VObj [("cat", VStr "a"); ("brand", VStr "b")])]) [].

Definition menu_under_first_store : Store.heap * Store.hval :=
  Store.load (one_entry_under_first "hierarchicalMenu" "cat" (VStr "a")) [].

(* ===================================================================== *)
(** ** Lemmas on objects and paths *)
(* ===================================================================== *)

Section Objects.
Context {A : Type}.

Lemma lookup_set_key_same (k : string) (v : A) (ps : list (string * A)) :
  lookup k (set_key k v ps) = Some v.
Proof.
  induction ps as [|[k' v'] r IH]; simpl.
  - now rewrite String.eqb_refl.
  - destruct (k' =? k)%string eqn:E; simpl.
    + now rewrite String.eqb_refl.
    + now rewrite E.
Qed.

Lemma lookup_remove_key_same (k : string) (ps : list (string * A)) :
  lookup k (remove_key k ps) = None.
Proof.
  induction ps as [|[k' v] r IH]; simpl; [reflexivity|].
  destruct (k' =? k)%string eqn:E; simpl; [exact IH | now rewrite E].
Qed.

End Objects.

Lemma hasPath_get_own_path (p : path) :
  forall v, hasPath v p = match get_own_path v p with Some _ => true | None => false end.
Proof.
  induction p as [|k rest IH]; intros v; simpl; [reflexivity|].
  destruct (get_own v k); [|reflexivity].
  destruct rest; [reflexivity | apply IH].
Qed.

Lemma get_own_get (v : jsval) (k : string) (x : jsval) :
  get_own v k = Some x -> get v k = Ok x.
Proof.
  destruct v; cbn [get_own own_props lookup get]; try discriminate; now intros ->.
Qed.

Lemma string_chars_no_length (s : string) :
  forall i, lookup "length" (string_chars i s) = None.
Proof.
  induction s as [|a r IH]; intros i; cbn [string_chars lookup]; [reflexivity|].
  rewrite IH. now destruct (Nat.to_uint i).
Qed.

Lemma string_chars_values (k : string) (x : jsval) (s : string) :
  forall i, lookup k (string_chars i s) = Some x -> exists ch, x = VStr (String ch "").
Proof.
  induction s as [|a r IH]; intros i; cbn [string_chars lookup]; [discriminate|].
  destruct (_ =? k)%string; [|apply IH].
  intros [= <-]. now exists a.
Qed.

Lemma lookup_own_props_get_own (v : jsval) (k : string) (x : jsval) :
  lookup k (own_props v) = Some x -> get_own v k = Some x.
Proof.
  destruct v as [| | | |s|ps]; cbn [get_own]; try (intros H; exact H).
  destruct (k =? "length")%string eqn:E; [|intros H; exact H].
  apply String.eqb_eq in E. subst k. cbn [own_props].
  now rewrite string_chars_no_length.
Qed.

Lemma lookup_own_props_get (v : jsval) (k : string) (x : jsval) :
  lookup k (own_props v) = Some x -> get v k = Ok x.
Proof.
  intros H. now apply get_own_get, lookup_own_props_get_own.
Qed.

Lemma get_path_own (p : path) :
  forall v x, get_path v p = Some x -> get_own_path v p = Some x.
Proof.
  induction p as [|k rest IH]; intros v x; cbn [get_path get_own_path]; [discriminate|].
  destruct (lookup k (own_props v)) as [y|] eqn:E; [|discriminate].
  rewrite (lookup_own_props_get_own _ _ _ E).
  destruct rest; [intros H; exact H | apply IH].
Qed.

(** Away from the key [length] the two readings of a path agree. *)
Lemma get_own_not_length (v : jsval) (k : string) :
  (k =? "length")%string = false -> get_own v k = lookup k (own_props v).
Proof.
  intros Hk. destruct v; try reflexivity. cbn [get_own]. now rewrite Hk.
Qed.

Lemma get_own_path_not_length (p : path) :
  forallb (fun k => negb (k =? "length")%string) p = true ->
  forall v, get_own_path v p = get_path v p.
Proof.
  induction p as [|k rest IH]; intros Hp v; cbn [get_own_path get_path]; [reflexivity|].
  cbn [forallb] in Hp. apply andb_prop in Hp as [Hk Hrest].
  apply negb_true_iff in Hk. rewrite (get_own_not_length v k Hk).
  destruct (lookup k (own_props v)); [|reflexivity].
  destruct rest; [reflexivity | now apply IH].
Qed.

Lemma num_ltb_irrefl (n : num) : num_ltb n n = false.
Proof. destruct n; simpl; auto using Z.ltb_irrefl. Qed.

(* ===================================================================== *)
(** ** The codec of the multi range *)
(* ===================================================================== *)

(** C3.  The round trip of the codec at the item [{start: 0, end: 5}]:
    [stringifyItem] drops the bound 0 and gives [":5"], which [parseItem]
    decodes to [{start: null, end: 5}], not to [{start: 0, end: 5}]. *)
Theorem codec_round_trip_at_zero :
  MultiRange.stringifyItem (MultiRange.mkRange (VNum (Int 0)) (VNum (Int 5))) = ":5"
  /\ MultiRange.parseItem
       (VStr (MultiRange.stringifyItem (MultiRange.mkRange (VNum (Int 0)) (VNum (Int 5)))))
     = Ok (MultiRange.mkRange VNull (VNum (Int 5)))
  /\ MultiRange.parseItem
       (VStr (MultiRange.stringifyItem (MultiRange.mkRange (VNum (Int 0)) (VNum (Int 5)))))
     <> Ok (MultiRange.mkRange (VNum (Int 0)) (VNum (Int 5))).
Proof.
  repeat split; try reflexivity. vm_compute. discriminate.
Qed.

Lemma split_nonempty (c : ascii) (s : string) : split c s <> [].
Proof.
  destruct s as [|a r]; simpl; [discriminate|].
  destruct (Ascii.eqb a c); [discriminate|].
  destruct (split c r); discriminate.
Qed.

Lemma split_two_parts (c : ascii) (s : string) :
  contains c s = true -> exists p q rest, split c s = p :: q :: rest.
Proof.
  induction s as [|a r IH]; simpl; [discriminate|].
  destruct (Ascii.eqb a c); simpl.
  - intros _. destruct (split c r) as [|q rest] eqn:E.
    + now apply split_nonempty in E.
    + now exists EmptyString, q, rest.
  - intros H. destruct (IH H) as (p & q & rest & ->).
    now exists (String a p), q, rest.
Qed.

Lemma parseHalf_decodeHalf (half : string) :
  MultiRange.parseHalf (Some half) = Ok (decodeHalf half).
Proof. destruct half; reflexivity. Qed.

Lemma parseItem_separated (value : string) :
  value = "" \/ contains ":" value = true ->
  MultiRange.parseItem (VStr value)
  = Ok (MultiRange.mkRange
          (decodeHalf (nth 0 (split ":" value) ""))
          (decodeHalf (nth 1 (split ":" value) ""))).
Proof.
  intros [-> | Hsep]; [reflexivity|].
  destruct (split_two_parts ":" value Hsep) as (p & q & rest & Hsplit).
  unfold MultiRange.parseItem.
  destruct value as [|a r]; [discriminate|].
  change (Z.of_nat (String.length (String a r)) =? 0) with false.
  cbv iota. rewrite Hsplit. cbn [nth_error nth].
  now rewrite !parseHalf_decodeHalf.
Qed.

(** C4 (as amended).  On the empty string and on every string that holds a
    [:] separator, [parseItem] returns a range: each half before and after
    the first separator is read as an integer when it is not empty and as
    null when it is (the empty string has two empty halves). *)
Theorem parseItem_returns_on_separated_strings :
  forall value : string,
    value = "" \/ contains ":" value = true ->
    MultiRange.parseItem (VStr value)
    = Ok (MultiRange.mkRange
            (decodeHalf (nth 0 (split ":" value) ""))
            (decodeHalf (nth 1 (split ":" value) ""))).
Proof. exact parseItem_separated. Qed.

Lemma parseItem_returns_on_separated_strings_witness :
  MultiRange.parseItem (VStr "10:")
  = Ok (MultiRange.mkRange (VNum (Int 10)) VNull).
Proof.
  exact (parseItem_returns_on_separated_strings "10:" (or_intror eq_refl)).
Defined.

(** C4, counterexample: on the string ["10"], which has no separator,
    [parseItem] throws instead of returning a range. *)
Lemma parseItem_throws_without_separator :
  MultiRange.parseItem (VStr "10") = Throw TypeError
  /\ ~ (exists r, MultiRange.parseItem (VStr "10") = Ok r).
Proof.
  split; [reflexivity|]. intros [r H]. vm_compute in H. discriminate.
Qed.

(* ===================================================================== *)
(** ** The items of the multi range *)
(* ===================================================================== *)





(* ===================================================================== *)
(** ** The state of the sort by *)
(* ===================================================================== *)

(** C10.  In a multi-index context, [refine] of the sort by returns a state
    whose [indices] entry is the object [{<index>: {sortBy: <next>}}] and
    nothing else: no other index name is below [indices], and no other
    namespace is below the targeted index. *)
Theorem sortBy_refine_replaces_indices :
  forall (p : SortBy.props) (searchState nextRefinement : jsval)
         (main targettedIndex : string),
    let c := {| mainTargettedIndex := main; multiIndexContext := Some targettedIndex |} in
    let state := SortBy.refine p searchState nextRefinement c in
    get_path state ["indices"]
    = Some (VObj [(targettedIndex, VObj [("sortBy", nextRefinement)])])
    /\ (forall other, other <> targettedIndex -> get_path state ["indices"; other] = None)
    /\ (forall namespace, namespace <> "sortBy" ->
          get_path state ["indices"; targettedIndex; namespace] = None).
Proof.
  intros p searchState nextRefinement main targettedIndex c state.
  assert (H : lookup "indices" (own_props state)
              = Some (VObj [(targettedIndex, VObj [("sortBy", nextRefinement)])])).
  { subst state c. unfold SortBy.refine, spread at 1. simpl.
    apply lookup_set_key_same. }
  cbn [get_path]. rewrite H. cbn [get_own own_props lookup].
  repeat split.
  - intros other Hne.
    destruct (targettedIndex =? other)%string eqn:E; [|reflexivity].
    apply String.eqb_eq in E. congruence.
  - intros namespace Hne. rewrite String.eqb_refl. cbn [get_own own_props lookup].
    destruct ("sortBy" =? namespace)%string eqn:E; [|reflexivity].
    apply String.eqb_eq in E. congruence.
Qed.

(* ===================================================================== *)
(** ** cleanUp *)
(* ===================================================================== *)

(** C5.  [cleanUp] of the hierarchical menu changes the state object it is
    given.  On [{hierarchicalMenu: {cat: 'a'}}] in a single-index context it
    returns a new object [{}], and the argument has become
    [{hierarchicalMenu: {}}].  On
    [{hierarchicalMenu: {cat: 'a', brand: 'b'}}] it returns the argument
    itself, which has lost the entry [cat]. *)
Theorem hierarchicalMenu_cleanUp_updates_its_argument :
  (exists h r,
      HierarchicalMenu.cleanUp (menu_props VUndef) (snd menu_store) single_index
        (fst menu_store) = Ok (h, r)
      /\ Store.reify 3 (fst menu_store) (snd menu_store)
         = VObj [("hierarchicalMenu", VObj [("cat", VStr "a")])]
      /\ Store.reify 3 h (snd menu_store) = VObj [("hierarchicalMenu", VObj [])]
      /\ Store.reify 3 h r = VObj [])
  /\ (exists h,
        HierarchicalMenu.cleanUp (menu_props VUndef) (snd two_menus_store) single_index
          (fst two_menus_store) = Ok (h, snd two_menus_store)
        /\ Store.reify 3 (fst two_menus_store) (snd two_menus_store)
           = VObj [("hierarchicalMenu", VObj [("cat", VStr "a"); ("brand", VStr "b")])]
        /\ Store.reify 3 h (snd two_menus_store)
           = VObj [("hierarchicalMenu", VObj [("brand", VStr "b")])]).
Proof.
  split.
  - eexists _, _. split; [vm_compute; reflexivity|]. repeat split.
  - eexists. split; [vm_compute; reflexivity|]. repeat split.
Qed.

(** C6.  In a multi-index context [cleanUp] leaves the entry or its empty
    container behind.  For the hierarchical menu, the state
    [{indices: {first: {hierarchicalMenu: {cat: 'a'}}}}] comes back with the
    entry [cat] still in it.  For the multi range, the state
    [{indices: {first: {multiRange: {price: '10:20'}}}}] comes back as
    [{indices: {first: {multiRange: {}}}}], with the empty namespace. *)
Theorem cleanUp_multi_index_leftovers :
  (exists h r,
      HierarchicalMenu.cleanUp (menu_props VUndef) (snd menu_under_first_store)
        multi_index (fst menu_under_first_store) = Ok (h, r)
      /\ Store.reify 5 h r
         = VObj [("indices",
                  VObj [("first",
                         VObj [("hierarchicalMenu", VObj [("cat", VStr "a")])])])])
  /\ MultiRange.cleanUp (range_props [] VUndef)
       (one_entry_under_first "multiRange" "price" (VStr "10:20")) multi_index
     = Ok (VObj [("indices", VObj [("first", VObj [("multiRange", VObj [])])])]).
Proof.
  split.
  - eexists _, _. split; vm_compute; reflexivity.
  - reflexivity.
Qed.

(* ===================================================================== *)
(** ** The search parameters of the multi range *)
(* ===================================================================== *)

Lemma in_sent (attributeName operator operator' : string) (v bound : jsval) :
  In (attributeName, operator', v) (sent attributeName operator bound)
  <-> operator' = operator /\ v = bound /\ truthy bound = true.
Proof.
  unfold sent. destruct (truthy bound); simpl; split.
  - intros [H|[]]. injection H as -> ->. now repeat split.
  - intros (-> & -> & _). now left.
  - intros [].
  - intros (_ & _ & H). discriminate H.
Qed.

(** C7.  [getSearchParameters] of the multi range adds to the numeric
    refinements of the builder exactly: [>=] with the decoded start when
    that is truthy, then [<=] with the decoded end when that is truthy.  So
    a [>=] (a [<=]) refinement is added if and only if the start (the end)
    is a truthy, hence non-zero, number, and a bound 0 is never sent. *)
Theorem getSearchParameters_numeric_bounds :
  forall (sp : SearchParameters.t) (p : MultiRange.props) (searchState : jsval)
         (c : context) (cur : jsval) (r : MultiRange.range),
    MultiRange.getCurrentRefinement p searchState c = Ok cur ->
    MultiRange.parseItem cur = Ok r ->
    let attributeName := MultiRange.attributeName p in
    let added :=
      (sent attributeName ">=" (MultiRange.start r)
       ++ sent attributeName "<=" (MultiRange.end_ r))%list in
    exists sp',
      MultiRange.getSearchParameters sp p searchState c = Ok sp'
      /\ SearchParameters.numericRefinements sp'
         = (SearchParameters.numericRefinements sp ++ added)%list
      /\ (forall v, In (attributeName, ">=", v) added
                    <-> v = MultiRange.start r /\ truthy v = true)
      /\ (forall v, In (attributeName, "<=", v) added
                    <-> v = MultiRange.end_ r /\ truthy v = true)
      /\ (forall operator, ~ In (attributeName, operator, VNum (Int 0)) added).
Proof.
  intros sp p searchState c cur r Hcur Hparse attributeName added.
  eexists. split; [|split; [|split; [|split]]].
  - unfold MultiRange.getSearchParameters. rewrite Hcur. cbn [bind].
    rewrite Hparse. cbn [bind]. reflexivity.
  - subst added. unfold sent.
    destruct (truthy (MultiRange.start r)), (truthy (MultiRange.end_ r));
      cbn [app SearchParameters.numericRefinements SearchParameters.addNumericRefinement
           SearchParameters.addDisjunctiveFacet];
      try rewrite List.app_nil_r; try rewrite <- List.app_assoc; reflexivity.
  - intros v. subst added. rewrite in_app_iff, !in_sent.
    split.
    + intros [(_ & -> & Ht) | (Hop & _)]; [now split | discriminate Hop].
    + intros [-> Ht]. left. now repeat split.
  - intros v. subst added. rewrite in_app_iff, !in_sent.
    split.
    + intros [(Hop & _) | (_ & -> & Ht)]; [discriminate Hop | now split].
    + intros [-> Ht]. right. now repeat split.
  - intros operator Hin. subst added.
    rewrite in_app_iff, !in_sent in Hin.
    destruct Hin as [(_ & <- & Ht) | (_ & <- & Ht)]; discriminate Ht.
Qed.

Lemma getSearchParameters_numeric_bounds_witness :
  exists sp',
    MultiRange.getSearchParameters (SearchParameters.make []) (range_props [] VUndef)
      (one_entry "multiRange" "price" (VStr "0:20")) single_index = Ok sp'
    /\ SearchParameters.numericRefinements sp' = [("price", "<=", VNum (Int 20))].
Proof.
  destruct (getSearchParameters_numeric_bounds
              (SearchParameters.make []) (range_props [] VUndef)
              (one_entry "multiRange" "price" (VStr "0:20")) single_index
              (VStr "0:20") (MultiRange.mkRange (VNum (Int 0)) (VNum (Int 20)))
              eq_refl eq_refl) as (sp' & Hrun & Hadded & _).
  exists sp'. split; [exact Hrun | exact Hadded].
Defined.

(* ===================================================================== *)
(** ** Reading the current refinement *)
(* ===================================================================== *)

Lemma split_plain (c : ascii) (a : string) :
  contains c a = false -> split c a = [a].
Proof.
  induction a as [|x a IH]; simpl; [reflexivity|].
  destruct (Ascii.eqb x c); simpl; [discriminate|].
  intros H. now rewrite (IH H).
Qed.

Lemma split_app_sep (c : ascii) (a b : string) :
  contains c a = false -> split c (a ++ String c b) = a :: split c b.
Proof.
  induction a as [|x a IH]; simpl.
  - intros _. now rewrite Ascii.eqb_refl.
  - destruct (Ascii.eqb x c); simpl; [discriminate|].
    intros H. now rewrite (IH H).
Qed.

Lemma contains_app_sep (c : ascii) (a b : string) :
  contains c (a ++ String c b) = true.
Proof.
  induction a as [|x a IH]; simpl.
  - now rewrite Ascii.eqb_refl.
  - rewrite IH. apply orb_true_r.
Qed.

Lemma plain_key_no_dot (k : string) : plain_key k = true -> contains "." k = false.
Proof.
  unfold plain_key. destruct (contains "." k); [discriminate | reflexivity].
Qed.

Lemma get_path_single (v : jsval) (k : string) (x : jsval) :
  get_path v [k] = Some x -> get v k = Ok x.
Proof.
  cbn [get_path]. destruct (lookup k (own_props v)) eqn:E; [|discriminate].
  intros [= ->]. now apply lookup_own_props_get.
Qed.

Lemma get_path_cons (v : jsval) (k k' : string) (rest : path) (x : jsval) :
  get_path v (k :: k' :: rest) = Some x ->
  exists y, get v k = Ok y /\ get_path y (k' :: rest) = Some x.
Proof.
  cbn [get_path]. destruct (lookup k (own_props v)) as [y|] eqn:E; [|discriminate].
  intros H. exists y. split; [now apply lookup_own_props_get | exact H].
Qed.

Lemma get_own_path_single (v : jsval) (k : string) (x : jsval) :
  get_own_path v [k] = Some x -> get v k = Ok x.
Proof.
  cbn [get_own_path]. destruct (get_own v k) eqn:E; [|discriminate].
  intros [= ->]. now apply get_own_get.
Qed.

Lemma get_own_path_cons (v : jsval) (k k' : string) (rest : path) (x : jsval) :
  get_own_path v (k :: k' :: rest) = Some x ->
  exists y, get v k = Ok y /\ get_own_path y (k' :: rest) = Some x.
Proof.
  cbn [get_own_path]. destruct (get_own v k) as [y|] eqn:E; [|discriminate].
  intros H. exists y. split; [now apply get_own_get | exact H].
Qed.

(** The chain of property reads along a path that is present. *)
Ltac read_path H :=
  repeat match type of H with
         | get_path _ (_ :: _ :: _) = Some _ =>
             let y := fresh "y" in
             let Hy := fresh "Hy" in
             apply get_path_cons in H; destruct H as (y & Hy & H);
             rewrite Hy; cbn [bind]
         | get_path _ [_] = Some _ =>
             apply get_path_single in H; rewrite H; cbn [bind]
         | get_own_path _ (_ :: _ :: _) = Some _ =>
             let y := fresh "y" in
             let Hy := fresh "Hy" in
             apply get_own_path_cons in H; destruct H as (y & Hy & H);
             rewrite Hy; cbn [bind]
         | get_own_path _ [_] = Some _ =>
             apply get_own_path_single in H; rewrite H; cbn [bind]
         end.

Lemma hierarchicalMenu_read_entry (p : HierarchicalMenu.props) (st : jsval)
  (c : context) (v : jsval) :
  get_own_path st (statePath c HierarchicalMenu.namespace (HierarchicalMenu.getId p))
  = Some v ->
  HierarchicalMenu.getCurrentRefinement p st c
  = Ok (if is_empty_string v then VNull else v).
Proof.
  unfold statePath, HierarchicalMenu.getCurrentRefinement, HierarchicalMenu.hasMultipleIndex,
    HierarchicalMenu.getIndex, has_keys.
  destruct (multiIndexContext c) as [index|]; intros H;
    cbn [andb orb negb]; rewrite hasPath_get_own_path, H;
    read_path H; now destruct (is_empty_string v).
Qed.

Lemma hierarchicalMenu_read_present (p : HierarchicalMenu.props) (st : jsval)
  (c : context) (v : jsval) :
  get_path st (statePath c HierarchicalMenu.namespace (HierarchicalMenu.getId p)) = Some v ->
  HierarchicalMenu.getCurrentRefinement p st c
  = Ok (if is_empty_string v then VNull else v).
Proof.
  intros H. now apply hierarchicalMenu_read_entry, get_path_own.
Qed.

Lemma hierarchicalMenu_read_no_entry (p : HierarchicalMenu.props) (st : jsval) (c : context) :
  get_own_path st (statePath c HierarchicalMenu.namespace (HierarchicalMenu.getId p))
  = None ->
  HierarchicalMenu.getCurrentRefinement p st c
  = Ok (if truthy (HierarchicalMenu.defaultRefinement p)
        then HierarchicalMenu.defaultRefinement p else VNull).
Proof.
  unfold statePath, HierarchicalMenu.getCurrentRefinement, HierarchicalMenu.hasMultipleIndex,
    HierarchicalMenu.getIndex, has_keys.
  destruct (multiIndexContext c) as [index|]; intros H;
    cbn [andb orb negb]; rewrite hasPath_get_own_path, H;
    now destruct (truthy (HierarchicalMenu.defaultRefinement p)).
Qed.

Lemma multiRange_dotted_split (c : context) (id : string) :
  forallb plain_key (statePath c MultiRange.namespace id) = true ->
  contains "." (multiRange_dotted c id) = true
  /\ stringToPath (multiRange_dotted c id) = statePath c MultiRange.namespace id.
Proof.
  unfold multiRange_dotted, statePath, stringToPath.
  destruct (multiIndexContext c) as [index|]; cbn [forallb]; intros H.
  - apply andb_prop in H as [_ H]. apply andb_prop in H as [Hindex H].
    apply andb_prop in H as [_ H]. apply andb_prop in H as [Hid _].
    apply plain_key_no_dot in Hindex, Hid.
    change ("indices." ++ index ++ "." ++ MultiRange.namespace ++ "." ++ id)
      with ("indices" ++ String "." (index ++ String "." ("multiRange" ++ String "." id))).
    split; [apply contains_app_sep|].
    rewrite split_app_sep by reflexivity.
    rewrite split_app_sep by exact Hindex.
    rewrite split_app_sep by reflexivity.
    now rewrite split_plain by exact Hid.
  - apply andb_prop in H as [_ H]. apply andb_prop in H as [Hid _].
    apply plain_key_no_dot in Hid.
    change (MultiRange.namespace ++ "." ++ id) with ("multiRange" ++ String "." id).
    split; [apply contains_app_sep|].
    rewrite split_app_sep by reflexivity.
    now rewrite split_plain by exact Hid.
Qed.

Lemma get_own_dotted (st : jsval) (k : string) :
  contains "." k = true -> get_own st k = lookup k (own_props st).
Proof.
  intros Hdot. destruct st as [| | | |s|ps]; try reflexivity.
  cbn [get_own]. destruct (k =? "length")%string eqn:E; [|reflexivity].
  apply String.eqb_eq in E. subst k. discriminate Hdot.
Qed.

Lemma hasOwn_dotted (st : jsval) (k : string) :
  forallb plain_key (map fst (own_props st)) = true ->
  contains "." k = true ->
  hasOwn st k = false.
Proof.
  unfold hasOwn. intros Hk Hdot. rewrite (get_own_dotted st k Hdot).
  revert Hk. generalize (own_props st) as ps.
  induction ps as [|[k' x] r IH]; cbn [map fst forallb lookup]; [reflexivity|].
  intros Hk. apply andb_prop in Hk as [Hk Hr].
  destruct (k' =? k)%string eqn:Ek; [|now apply IH].
  apply String.eqb_eq in Ek. subst k'.
  apply plain_key_no_dot in Hk. congruence.
Qed.

Lemma multiRange_has_entry (c : context) (id : string) (st v : jsval) :
  forallb plain_key (statePath c MultiRange.namespace id) = true ->
  get_own_path st (statePath c MultiRange.namespace id) = Some v ->
  has st (multiRange_dotted c id) = true.
Proof.
  intros Hplain H. destruct (multiRange_dotted_split c id Hplain) as [Hdot Hsplit].
  unfold has, castPath. rewrite Hdot. cbn [negb].
  destruct (hasOwn st (multiRange_dotted c id)) eqn:E.
  - unfold hasOwn in E. cbn [hasPath].
    destruct (get_own st (multiRange_dotted c id)); [reflexivity | discriminate].
  - now rewrite Hsplit, hasPath_get_own_path, H.
Qed.

Lemma multiRange_has_no_entry (c : context) (id : string) (st : jsval) :
  forallb plain_key (statePath c MultiRange.namespace id) = true ->
  hasOwn st (multiRange_dotted c id) = false ->
  get_own_path st (statePath c MultiRange.namespace id) = None ->
  has st (multiRange_dotted c id) = false.
Proof.
  intros Hplain Hown H. destruct (multiRange_dotted_split c id Hplain) as [Hdot Hsplit].
  unfold has, castPath. rewrite Hdot. cbn [negb].
  now rewrite Hown, Hsplit, hasPath_get_own_path, H.
Qed.

(** Once the entry is there, the multi range reads it or, when [has] misses
    it, falls back to the default. *)
Lemma multiRange_read_entry (p : MultiRange.props) (st : jsval) (c : context) (v : jsval) :
  get_own_path st (statePath c MultiRange.namespace (MultiRange.getId p)) = Some v ->
  MultiRange.getCurrentRefinement p st c
  = Ok (if is_empty_string v then VStr "" else v)
  \/ MultiRange.getCurrentRefinement p st c
     = Ok (if truthy (MultiRange.defaultRefinement p)
           then MultiRange.defaultRefinement p else VStr "").
Proof.
  unfold statePath, MultiRange.getCurrentRefinement,
    MultiRange.hasMultipleIndex, MultiRange.getIndex.
  destruct (multiIndexContext c) as [index|]; intros H; cbn [andb orb negb];
    match goal with
    | |- context [has st ?d] => destruct (has st d)
    end;
    try (right; now destruct (truthy (MultiRange.defaultRefinement p)));
    left; read_path H; now destruct (is_empty_string v).
Qed.

Lemma multiRange_read_present (p : MultiRange.props) (st : jsval) (c : context) (v : jsval) :
  forallb plain_key (statePath c MultiRange.namespace (MultiRange.getId p)) = true ->
  get_path st (statePath c MultiRange.namespace (MultiRange.getId p)) = Some v ->
  MultiRange.getCurrentRefinement p st c
  = Ok (if is_empty_string v then VStr "" else v).
Proof.
  intros Hplain H. apply get_path_own in H.
  pose proof (multiRange_has_entry c _ st v Hplain H) as Hhas.
  revert H Hhas.
  unfold statePath, multiRange_dotted, MultiRange.getCurrentRefinement,
    MultiRange.hasMultipleIndex, MultiRange.getIndex.
  destruct (multiIndexContext c) as [index|]; intros H Hhas;
    rewrite Hhas; cbn [andb orb negb];
    read_path H; now destruct (is_empty_string v).
Qed.

Lemma multiRange_read_no_entry (p : MultiRange.props) (st : jsval) (c : context) :
  forallb plain_key (statePath c MultiRange.namespace (MultiRange.getId p)) = true ->
  hasOwn st (multiRange_dotted c (MultiRange.getId p)) = false ->
  get_own_path st (statePath c MultiRange.namespace (MultiRange.getId p)) = None ->
  MultiRange.getCurrentRefinement p st c
  = Ok (if truthy (MultiRange.defaultRefinement p)
        then MultiRange.defaultRefinement p else VStr "").
Proof.
  intros Hplain Hown H.
  pose proof (multiRange_has_no_entry c _ st Hplain Hown H) as Hhas.
  revert Hhas.
  unfold multiRange_dotted, MultiRange.getCurrentRefinement,
    MultiRange.hasMultipleIndex, MultiRange.getIndex.
  destruct (multiIndexContext c) as [index|]; intros Hhas;
    rewrite Hhas; cbn [andb orb negb];
    now destruct (truthy (MultiRange.defaultRefinement p)).
Qed.

(** C8 (as amended).  For props without a truthy default refinement, a
    state whose entry for the widget is the empty string reads like a state
    without the entry: the hierarchical menu reads null from both, the multi
    range reads [''] from both.  The entry is the own property at the
    position of the widget ([get_own_path]).  The multi range looks its
    entry up by the dotted string [multiRange.<attribute>] (after
    [indices.<index>.] in a multi-index context), so for it the state
    without the entry is one where the attribute name and the index name
    hold no [.], [[] or []], and where no top-level key of the state is
    that dotted string itself. *)
Theorem empty_entry_reads_as_absent :
  (forall (c : context) (menu : HierarchicalMenu.props),
      truthy (HierarchicalMenu.defaultRefinement menu) = false ->
      (forall menuEmpty : jsval,
          get_own_path menuEmpty
            (statePath c HierarchicalMenu.namespace (HierarchicalMenu.getId menu))
          = Some (VStr "") ->
          HierarchicalMenu.getCurrentRefinement menu menuEmpty c = Ok VNull)
      /\ (forall menuAbsent : jsval,
            get_own_path menuAbsent
              (statePath c HierarchicalMenu.namespace (HierarchicalMenu.getId menu))
            = None ->
            HierarchicalMenu.getCurrentRefinement menu menuAbsent c = Ok VNull))
  /\ (forall (c : context) (range : MultiRange.props),
        truthy (MultiRange.defaultRefinement range) = false ->
        (forall rangeEmpty : jsval,
            get_own_path rangeEmpty
              (statePath c MultiRange.namespace (MultiRange.getId range))
            = Some (VStr "") ->
            MultiRange.getCurrentRefinement range rangeEmpty c = Ok (VStr ""))
        /\ (forall rangeAbsent : jsval,
              forallb plain_key
                (statePath c MultiRange.namespace (MultiRange.getId range)) = true ->
              hasOwn rangeAbsent (multiRange_dotted c (MultiRange.getId range)) = false ->
              get_own_path rangeAbsent
                (statePath c MultiRange.namespace (MultiRange.getId range))
              = None ->
              MultiRange.getCurrentRefinement range rangeAbsent c = Ok (VStr ""))).
Proof.
  split.
  - intros c menu Hmenu. split.
    + intros menuEmpty H. now rewrite (hierarchicalMenu_read_entry _ _ _ _ H).
    + intros menuAbsent H. now rewrite (hierarchicalMenu_read_no_entry _ _ _ H), Hmenu.
  - intros c range Hrange. split.
    + intros rangeEmpty H.
      destruct (multiRange_read_entry range rangeEmpty c _ H) as [-> | ->];
        [reflexivity | now rewrite Hrange].
    + intros rangeAbsent Hplain Hown H.
      now rewrite (multiRange_read_no_entry _ _ _ Hplain Hown H), Hrange.
Qed.

Lemma empty_entry_reads_as_absent_witness :
  (HierarchicalMenu.getCurrentRefinement (menu_props VUndef)
     (one_entry_under_first "hierarchicalMenu" "cat" (VStr "")) multi_index = Ok VNull
   /\ HierarchicalMenu.getCurrentRefinement (menu_props VUndef)
        (VObj [("indices", VObj [("second", VObj [])])]) multi_index = Ok VNull)
  /\ (MultiRange.getCurrentRefinement (range_props [] VUndef)
        (one_entry_under_first "multiRange" "price" (VStr "")) multi_index = Ok (VStr "")
      /\ MultiRange.getCurrentRefinement (range_props [] VUndef)
           (VObj [("foo.bar", VStr "shoes")]) multi_index = Ok (VStr "")).
Proof.
  destruct empty_entry_reads_as_absent as [Hmenu Hrange].
  destruct (Hmenu multi_index (menu_props VUndef) eq_refl) as [HmenuEmpty HmenuAbsent].
  destruct (Hrange multi_index (range_props [] VUndef) eq_refl)
    as [HrangeEmpty HrangeAbsent].
  split; split.
  - exact (HmenuEmpty (one_entry_under_first "hierarchicalMenu" "cat" (VStr "")) eq_refl).
  - exact (HmenuAbsent (VObj [("indices", VObj [("second", VObj [])])]) eq_refl).
  - exact (HrangeEmpty (one_entry_under_first "multiRange" "price" (VStr "")) eq_refl).
  - exact (HrangeAbsent (VObj [("foo.bar", VStr "shoes")]) eq_refl eq_refl eq_refl).
Defined.

(** C8, counterexample: with a default refinement in the props, the empty
    string and the absent entry read differently.  The hierarchical menu
    with the default ['a'] reads null from [{hierarchicalMenu: {cat: ''}}]
    and ['a'] from [{}]; the multi range with the default ['10:20'] reads
    [''] from [{multiRange: {price: ''}}] and ['10:20'] from [{}]. *)
Lemma empty_entry_differs_from_absent_with_default :
  (HierarchicalMenu.getCurrentRefinement (menu_props (VStr "a"))
     (one_entry "hierarchicalMenu" "cat" (VStr "")) single_index = Ok VNull
   /\ HierarchicalMenu.getCurrentRefinement (menu_props (VStr "a"))
        (VObj []) single_index = Ok (VStr "a"))
  /\ (MultiRange.getCurrentRefinement (range_props [] (VStr "10:20"))
        (one_entry "multiRange" "price" (VStr "")) single_index = Ok (VStr "")
      /\ MultiRange.getCurrentRefinement (range_props [] (VStr "10:20"))
           (VObj []) single_index = Ok (VStr "10:20"))
  /\ HierarchicalMenu.getCurrentRefinement (menu_props (VStr "a"))
       (one_entry "hierarchicalMenu" "cat" (VStr "")) single_index
     <> HierarchicalMenu.getCurrentRefinement (menu_props (VStr "a"))
          (VObj []) single_index.
Proof.
  repeat split; try reflexivity. vm_compute. discriminate.
Qed.

(* ===================================================================== *)
(** ** The toggle of the hierarchical menu *)
(* ===================================================================== *)

Lemma lookup_spread_single (k : string) (v : jsval) (ps : list (string * jsval)) :
  lookup k (spread ps (VObj [(k, v)])) = Some v.
Proof. unfold spread. cbn [own_props fold_left fst snd]. apply lookup_set_key_same. Qed.

(** Reads of a key that was just assigned. *)
Ltac read_assigned :=
  repeat ((progress cbn [get_path get_own own_props lookup])
          || rewrite lookup_set_key_same
          || rewrite lookup_spread_single
          || rewrite String.eqb_refl).

Lemma hierarchicalMenu_refine_clear_stores_empty (p : HierarchicalMenu.props)
  (st next st' : jsval) (c : context) :
  truthy next = false ->
  HierarchicalMenu.refine p st next c = Ok st' ->
  get_path st' (statePath c HierarchicalMenu.namespace (HierarchicalMenu.getId p))
  = Some (VStr "").
Proof.
  intros Hnext. unfold HierarchicalMenu.refine, statePath,
    HierarchicalMenu.hasMultipleIndex, HierarchicalMenu.getIndex.
  rewrite Hnext.
  destruct (multiIndexContext c) as [index|].
  - destruct (has st ("indices." ++ index)).
    + destruct (get st "indices") as [indices|]; cbn [bind]; [|discriminate].
      destruct (get indices index) as [atIndex|]; cbn [bind]; [|discriminate].
      destruct (get atIndex HierarchicalMenu.namespace) as [ns|]; cbn [bind];
        [|discriminate].
      intros [= <-]. now read_assigned.
    + destruct (get st "indices") as [indices|]; cbn [bind]; [|discriminate].
      intros [= <-]. now read_assigned.
  - destruct (get st HierarchicalMenu.namespace) as [ns|]; cbn [bind]; [|discriminate].
    intros [= <-]. now read_assigned.
Qed.

Lemma hierarchicalMenu_refine_returns (p : HierarchicalMenu.props)
  (st next v : jsval) (c : context) :
  get_path st (statePath c HierarchicalMenu.namespace (HierarchicalMenu.getId p)) = Some v ->
  exists st', HierarchicalMenu.refine p st next c = Ok st'.
Proof.
  unfold HierarchicalMenu.refine, statePath,
    HierarchicalMenu.hasMultipleIndex, HierarchicalMenu.getIndex.
  destruct (multiIndexContext c) as [index|]; intros H.
  - apply get_path_cons in H as (indices & Hindices & H).
    apply get_path_cons in H as (atIndex & HatIndex & H).
    apply get_path_cons in H as (ns & Hns & H).
    destruct (has st ("indices." ++ index));
      rewrite Hindices; cbn [bind]; [rewrite HatIndex; cbn [bind]; rewrite Hns; cbn [bind]|];
      eexists; reflexivity.
  - apply get_path_cons in H as (ns & Hns & H).
    rewrite Hns. cbn [bind]. eexists; reflexivity.
Qed.

(** C2.  When the current refinement is a path, the value derived for the
    node of that same path is the read-back of a builder on which the path
    was toggled twice, and that is no path at all (the first element of an
    empty list); [refine] with this value stores the clear sentinel, from
    which the current refinement reads null: the menu is back at the
    root.  [refine] does return a state when the path was read from the
    state. *)
Theorem getValue_of_active_path_clears :
  forall (p : HierarchicalMenu.props) (searchState : jsval) (c : context) (path : string),
    HierarchicalMenu.getCurrentRefinement p searchState c = Ok (VStr path) ->
    HierarchicalMenu.getValue path p searchState c = Ok VUndef
    /\ (forall next,
          HierarchicalMenu.refine p searchState VUndef c = Ok next ->
          HierarchicalMenu.getCurrentRefinement p next c = Ok VNull)
    /\ (get_path searchState
          (statePath c HierarchicalMenu.namespace (HierarchicalMenu.getId p))
        = Some (VStr path) ->
        exists next, HierarchicalMenu.refine p searchState VUndef c = Ok next).
Proof.
  intros p searchState c path Hcur. repeat split.
  - unfold HierarchicalMenu.getValue. rewrite Hcur. cbn [bind is_null].
    unfold SearchParameters.toggleHierarchicalFacetRefinement,
      SearchParameters.getHierarchicalRefinement, SearchParameters.make.
    cbn [SearchParameters.hierarchicalFacetsRefinements lookup set_key].
    repeat (rewrite String.eqb_refl || (progress cbn [strict_eqb set_key lookup hd])).
    reflexivity.
  - intros next Hrefine.
    apply hierarchicalMenu_refine_clear_stores_empty in Hrefine; [|reflexivity].
    now rewrite (hierarchicalMenu_read_present _ _ _ _ Hrefine).
  - intros Hstored. now apply (hierarchicalMenu_refine_returns _ _ _ _ _ Hstored).
Qed.

Lemma getValue_of_active_path_clears_witness :
  HierarchicalMenu.getValue "a > b" (menu_props VUndef)
    (one_entry "hierarchicalMenu" "cat" (VStr "a > b")) single_index = Ok VUndef
  /\ HierarchicalMenu.getCurrentRefinement (menu_props VUndef)
       (one_entry "hierarchicalMenu" "cat" (VStr "")) single_index = Ok VNull.
Proof.
  destruct (getValue_of_active_path_clears (menu_props VUndef)
              (one_entry "hierarchicalMenu" "cat" (VStr "a > b")) single_index "a > b"
              eq_refl) as (Hvalue & Hnext & _).
  split; [exact Hvalue | exact (Hnext _ eq_refl)].
Defined.

(* ===================================================================== *)
(** ** The round trip of the codec away from zero *)
(* ===================================================================== *)

Lemma digit_string_no_separator (d : Decimal.uint) :
  contains ":" (NilEmpty.string_of_uint d) = false.
Proof. induction d; simpl; auto. Qed.

Lemma parse_digits_uint (d : Decimal.uint) :
  forall acc, parse_digits (Some acc) (NilEmpty.string_of_uint d) = Some (uint_value acc d).
Proof.
  induction d; intros acc; cbn [NilEmpty.string_of_uint parse_digits uint_value];
    try reflexivity;
    match goal with
    | |- context [digit_of ?ch] =>
        let v := eval vm_compute in (digit_of ch) in
        change (digit_of ch) with v; cbv iota; apply IHd
    end.
Qed.

Lemma uint_value_acc (d : Decimal.uint) :
  forall acc : positive, uint_value (Zpos acc) d = Zpos (Pos.of_uint_acc d acc).
Proof.
  induction d; intros acc; cbn [uint_value Pos.of_uint_acc]; try reflexivity;
    rewrite <- IHd; f_equal; lia.
Qed.

Lemma uint_value_of_uint (d : Decimal.uint) :
  uint_value 0 d = Z.of_N (Pos.of_uint d).
Proof.
  induction d; cbn [uint_value Pos.of_uint]; try reflexivity;
    try exact IHd;
    match goal with
    | |- uint_value ?a _ = _ =>
        let v := eval vm_compute in a in
        change a with v; apply uint_value_acc
    end.
Qed.

Lemma parse_digits_nonnil (d : Decimal.uint) :
  d <> Decimal.Nil ->
  parse_digits None (NilEmpty.string_of_uint d) = Some (uint_value 0 d).
Proof.
  destruct d; [congruence|..]; intros _;
    cbn [NilEmpty.string_of_uint parse_digits uint_value];
    match goal with
    | |- context [digit_of ?ch] =>
        let v := eval vm_compute in (digit_of ch) in
        change (digit_of ch) with v; cbv iota; apply parse_digits_uint
    end.
Qed.

Lemma parse_digits_positive (p : positive) :
  parse_digits None (NilEmpty.string_of_uint (Pos.to_uint p)) = Some (Zpos p).
Proof.
  rewrite parse_digits_nonnil by apply Unsigned.to_uint_nonnil.
  now rewrite uint_value_of_uint, Unsigned.of_to.
Qed.

Lemma string_of_positive_shape (p : positive) :
  let s := NilEmpty.string_of_uint (Pos.to_uint p) in
  NilZero.string_of_uint (Pos.to_uint p) = s
  /\ trim_start s = s
  /\ read_sign s = (false, s)
  /\ (s =? "")%string = false.
Proof.
  pose proof (Unsigned.to_uint_nonnil p) as Hnil.
  destruct (Pos.to_uint p); [congruence|..]; repeat split.
Qed.

Lemma safe_integer_abs (z : Z) (p : positive) :
  Z.abs z = Zpos p -> safe_integer z = true -> (Zpos p <? pow53) = true.
Proof. unfold safe_integer. now intros ->. Qed.

Lemma natural_to_string_safe (p : positive) :
  (Zpos p <? pow53) = true ->
  natural_to_string (Zpos p) = NilEmpty.string_of_uint (Pos.to_uint p)
  /\ nearest_double (Zpos p) = Some (Zpos p).
Proof.
  unfold natural_to_string, nearest_double, digits.
  intros ->. cbn [Z.to_int NilZero.string_of_int].
  destruct (string_of_positive_shape p) as (-> & _). split; reflexivity.
Qed.

Lemma num_to_string_safe (z : Z) :
  z <> 0 ->
  safe_integer z = true ->
  exists p : positive,
    Z.abs z = Zpos p
    /\ nearest_double (Zpos p) = Some (Zpos p)
    /\ num_to_string (Int z)
       = (if z <? 0 then String "-" (NilEmpty.string_of_uint (Pos.to_uint p))
          else NilEmpty.string_of_uint (Pos.to_uint p)).
Proof.
  intros Hz Hsafe.
  assert (Habs : exists p, Z.abs z = Zpos p).
  { destruct z as [|p|p]; [exfalso; apply Hz; reflexivity|..]; now exists p. }
  destruct Habs as [p Habs]. exists p.
  destruct (natural_to_string_safe p (safe_integer_abs z p Habs Hsafe))
    as [Hprint Hround].
  split; [exact Habs|]. split; [exact Hround|].
  destruct z as [|q|q]; [exfalso; apply Hz; reflexivity|..];
    injection Habs as ->;
    cbn [num_to_string Z.ltb Z.compare Z.opp]; rewrite Hprint; reflexivity.
Qed.

Lemma parseInt_num_to_string (z : Z) :
  z <> 0 -> safe_integer z = true -> parseInt (num_to_string (Int z)) = Int z.
Proof.
  intros Hz Hsafe.
  destruct (num_to_string_safe z Hz Hsafe) as (p & Habs & Hround & ->).
  destruct (string_of_positive_shape p) as (_ & Htrim & Hsign & _).
  unfold parseInt, num_of_digits.
  destruct z as [|q|q]; [congruence|..]; injection Habs as ->;
    cbn [Z.ltb Z.compare].
  - now rewrite Htrim, Hsign, parse_digits_positive, Hround.
  - cbn [trim_start is_space]. change (is_space "-") with false. cbv iota.
    cbn [read_sign]. now rewrite parse_digits_positive, Hround.
Qed.

Lemma num_to_string_plain (z : Z) :
  z <> 0 ->
  safe_integer z = true ->
  contains ":" (num_to_string (Int z)) = false
  /\ (num_to_string (Int z) =? "")%string = false.
Proof.
  intros Hz Hsafe.
  destruct (num_to_string_safe z Hz Hsafe) as (p & Habs & _ & ->).
  destruct (string_of_positive_shape p) as (_ & _ & _ & Hne).
  destruct (z <? 0).
  - split; [|reflexivity]. cbn [contains]. apply digit_string_no_separator.
  - split; [apply digit_string_no_separator | exact Hne].
Qed.

(** On a string that is not empty and has no separator, the second half
    is missing and [parseItem] throws. *)
Lemma parseItem_without_separator (value : string) :
  value <> "" ->
  contains ":" value = false ->
  MultiRange.parseItem (VStr value) = Throw TypeError.
Proof.
  intros Hne Hsep. unfold MultiRange.parseItem.
  destruct value as [|a r]; [congruence|].
  change (Z.of_nat (String.length (String a r)) =? 0) with false. cbv iota.
  rewrite split_plain by exact Hsep. reflexivity.
Qed.

(** The text [stringifyItem] prints for one bound. *)
Lemma half_of_bound (v : jsval) :
  is_nonzero_bound v = true ->
  let half := if truthy v then to_string v else "" in
  contains ":" half = false /\ decodeHalf half = coalesce_null v.
Proof.
  destruct v as [| | |n| |]; try discriminate; try (intros _; split; reflexivity).
  destruct n as [| | |z]; try discriminate.
  cbn [is_nonzero_bound truthy to_string coalesce_null].
  intros Hz. apply andb_prop in Hz as [Hz Hsafe]. rewrite Hz. cbv zeta iota.
  assert (Hz' : z <> 0) by (intros ->; discriminate Hz).
  destruct (num_to_string_plain z Hz' Hsafe) as [Hsep Hne].
  split; [exact Hsep|].
  unfold decodeHalf. now rewrite Hne, parseInt_num_to_string.
Qed.

(** Away from the bound 0 the codec round-trips: for bounds that are absent
    (undefined or null) or safe integers other than 0, decoding the encoding
    of an item gives the item with absent bounds turned to null. *)
Lemma codec_round_trip_nonzero (a b : jsval) :
  is_nonzero_bound a = true ->
  is_nonzero_bound b = true ->
  MultiRange.parseItem (VStr (MultiRange.stringifyItem (MultiRange.mkRange a b)))
  = Ok (MultiRange.mkRange (coalesce_null a) (coalesce_null b)).
Proof.
  intros Ha Hb.
  destruct (half_of_bound a Ha) as [Hsa Hda].
  destruct (half_of_bound b Hb) as [Hsb Hdb].
  unfold MultiRange.stringifyItem. cbn [MultiRange.start MultiRange.end_].
  destruct (is_undefined a && is_undefined b) eqn:E.
  - apply andb_prop in E as [Ea Eb].
    destruct a; try discriminate; destruct b; try discriminate. reflexivity.
  - rewrite parseItem_separated by (right; apply contains_app_sep).
    change (":" ++ ?x) with (String ":" x).
    rewrite split_app_sep by exact Hsa.
    rewrite split_plain by exact Hsb.
    cbn [nth]. now rewrite Hda, Hdb.
Qed.

(* ===================================================================== *)
(** ** cleanUp of the multi range in a single-index context *)
(* ===================================================================== *)

(** Outside a multi-index context, [cleanUp] of the multi range removes the
    namespace of a widget that was alone in it. *)
Lemma multiRange_cleanUp_single_index (p : MultiRange.props) (st v : jsval) (main : string) :
  plain_key (MultiRange.getId p) = true ->
  forallb plain_key (map fst (own_props st)) = true ->
  lookup MultiRange.namespace (own_props st) = Some (VObj [(MultiRange.getId p, v)]) ->
  exists st',
    MultiRange.cleanUp p st {| mainTargettedIndex := main; multiIndexContext := None |}
    = Ok st'
    /\ lookup MultiRange.namespace (own_props st') = None.
Proof.
  intros Hid Hkeys Hns.
  set (c := {| mainTargettedIndex := main; multiIndexContext := None |}).
  assert (Hplain : forallb plain_key (statePath c MultiRange.namespace (MultiRange.getId p))
                   = true).
  { cbn [statePath c multiIndexContext forallb]. now rewrite Hid. }
  destruct (multiRange_dotted_split c _ Hplain) as [Hdot Hsplit].
  unfold multiRange_dotted, statePath in Hdot, Hsplit.
  cbn [c multiIndexContext] in Hdot, Hsplit.
  destruct st as [| | | |s|ps]; try discriminate Hns.
  { apply string_chars_values in Hns as [ch Hch]. discriminate Hch. }
  cbn [own_props] in *.
  assert (Homit : omit (VObj ps) (MultiRange.namespace ++ "." ++ MultiRange.getId p)
                  = VObj (set_key MultiRange.namespace (VObj []) ps)).
  { unfold omit, castPath.
    rewrite Hdot, (hasOwn_dotted (VObj ps) _ Hkeys Hdot), Hsplit.
    cbn [negb own_props baseUnset]. rewrite Hns.
    cbn [remove_key]. now rewrite String.eqb_refl. }
  unfold MultiRange.cleanUp, MultiRange.hasMultipleIndex. cbn [c multiIndexContext bind].
  cbv zeta. rewrite Homit.
  cbn [get get_own own_props]. rewrite lookup_set_key_same. cbn [bind isEmpty].
  eexists. split; [reflexivity|].
  unfold omit, castPath. cbn. apply lookup_remove_key_same.
Qed.

(* ===================================================================== *)
(** ** More on objects and dotted paths *)
(* ===================================================================== *)

Section Assignments.
Context {A : Type}.

Lemma lookup_set_key_other (k k0 : string) (v : A) (ps : list (string * A)) :
  k0 <> k -> lookup k0 (set_key k v ps) = lookup k0 ps.
Proof.
  intros Hne. induction ps as [|[k' v'] r IH]; simpl.
  - destruct (k =? k0)%string eqn:E; [apply String.eqb_eq in E; congruence | reflexivity].
  - destruct (k' =? k)%string eqn:E; simpl; [|now rewrite IH].
    apply String.eqb_eq in E. subst k'.
    destruct (k =? k0)%string eqn:E'; [apply String.eqb_eq in E'; congruence | reflexivity].
Qed.

Lemma lookup_remove_key_other (k k0 : string) (ps : list (string * A)) :
  k0 <> k -> lookup k0 (remove_key k ps) = lookup k0 ps.
Proof.
  intros Hne. induction ps as [|[k' v'] r IH]; simpl; [reflexivity|].
  destruct (k' =? k)%string eqn:E; simpl.
  - apply String.eqb_eq in E. subst k'.
    destruct (k =? k0)%string eqn:E'; [apply String.eqb_eq in E'; congruence | exact IH].
  - now rewrite IH.
Qed.

Lemma lookup_not_a_key (k : string) (ps : list (string * A)) :
  existsb (String.eqb k) (map fst ps) = false -> lookup k ps = None.
Proof.
  induction ps as [|[k' v'] r IH]; simpl; [reflexivity|].
  rewrite (String.eqb_sym k k').
  destruct (k' =? k)%string; simpl; [discriminate | exact IH].
Qed.

Lemma remove_key_all (k j : string) (ps : list (string * A)) :
  remove_key k ps = [] -> j <> k -> lookup j ps = None.
Proof.
  intros Hall Hne. rewrite <- (lookup_remove_key_other k j ps Hne). now rewrite Hall.
Qed.

End Assignments.

(** [{...acc, ...v}] read at a key: the property of [v] when it has one,
    else that of [acc]. *)
Lemma lookup_spread (k : string) (v : jsval) :
  distinct_keys (own_props v) = true ->
  forall acc,
    lookup k (spread acc v)
    = match lookup k (own_props v) with
      | Some x => Some x
      | None => lookup k acc
      end.
Proof.
  unfold spread. generalize (own_props v) as qs.
  induction qs as [|[k1 v1] r IH]; intros Hd acc; cbn [fold_left lookup fst snd];
    [reflexivity|].
  cbn [distinct_keys] in Hd. apply andb_prop in Hd as [Hk1 Hr].
  apply negb_true_iff in Hk1. rewrite (IH Hr).
  destruct (k1 =? k)%string eqn:E.
  - apply String.eqb_eq in E. subst k1.
    rewrite (lookup_not_a_key _ _ Hk1). apply lookup_set_key_same.
  - destruct (lookup k r); [reflexivity|].
    apply lookup_set_key_other. intros ->. now rewrite String.eqb_refl in E.
Qed.

Lemma lookup_spread_copy (k : string) (v : jsval) :
  distinct_keys (own_props v) = true ->
  lookup k (spread [] v) = lookup k (own_props v).
Proof.
  intros Hd. rewrite (lookup_spread k v Hd). now destruct (lookup k (own_props v)).
Qed.

Lemma truthy_not_empty_string (v : jsval) :
  truthy v = true -> is_empty_string v = false.
Proof.
  destruct v; simpl; try reflexivity. now intros ->%negb_true_iff.
Qed.

Lemma is_empty_string_inv (v : jsval) : is_empty_string v = true -> v = VStr "".
Proof.
  destruct v; simpl; try discriminate. now intros ->%String.eqb_eq.
Qed.

Lemma has_dotted_present (st : jsval) (dotted : string) (p : path) (v : jsval) :
  contains "." dotted = true ->
  stringToPath dotted = p ->
  get_path st p = Some v ->
  has st dotted = true.
Proof.
  intros Hdot Hsplit H. apply get_path_own in H. unfold has, castPath.
  rewrite Hdot. cbn [negb].
  destruct (hasOwn st dotted) eqn:E.
  - unfold hasOwn in E. cbn [hasPath].
    destruct (get_own st dotted); [reflexivity | discriminate].
  - now rewrite Hsplit, hasPath_get_own_path, H.
Qed.

Lemma has_dotted_absent (st : jsval) (dotted : string) (p : path) :
  contains "." dotted = true ->
  stringToPath dotted = p ->
  forallb plain_key (map fst (own_props st)) = true ->
  get_own_path st p = None ->
  has st dotted = false.
Proof.
  intros Hdot Hsplit Hkeys H. unfold has, castPath. rewrite Hdot. cbn [negb].
  now rewrite (hasOwn_dotted st _ Hkeys Hdot), Hsplit, hasPath_get_own_path, H.
Qed.

(* ===================================================================== *)
(** ** Reading and writing the refinement of the hierarchical menu *)
(* ===================================================================== *)

Lemma hierarchicalMenu_read (p : HierarchicalMenu.props) (st : jsval) (c : context) :
  HierarchicalMenu.getCurrentRefinement p st c
  = Ok match get_own_path st
               (statePath c HierarchicalMenu.namespace (HierarchicalMenu.getId p)) with
       | Some v => if is_empty_string v then VNull else v
       | None =>
           if truthy (HierarchicalMenu.defaultRefinement p)
           then HierarchicalMenu.defaultRefinement p else VNull
       end.
Proof.
  destruct (get_own_path st
              (statePath c HierarchicalMenu.namespace (HierarchicalMenu.getId p)))
    as [v|] eqn:E.
  - now apply hierarchicalMenu_read_entry.
  - now apply hierarchicalMenu_read_no_entry.
Qed.

(** X1.  [getCurrentRefinement] of the hierarchical menu never throws,
    whatever the state: it reads the own property at the position of the
    widget (null when that is the empty string), and when there is none the
    default refinement of the props, or null.  Own properties are followed
    as [hasOwnProperty] sees them: on a string, its characters and its
    [length]. *)
Theorem hierarchicalMenu_getCurrentRefinement_reads :
  forall (p : HierarchicalMenu.props) (searchState : jsval) (c : context),
    HierarchicalMenu.getCurrentRefinement p searchState c
    = Ok match get_own_path searchState
                 (statePath c HierarchicalMenu.namespace (HierarchicalMenu.getId p)) with
         | Some v => if is_empty_string v then VNull else v
         | None =>
             if truthy (HierarchicalMenu.defaultRefinement p)
             then HierarchicalMenu.defaultRefinement p else VNull
         end.
Proof. exact hierarchicalMenu_read. Qed.

Lemma hierarchicalMenu_getCurrentRefinement_reads_witness :
  HierarchicalMenu.getCurrentRefinement (menu_on "0")
    (VObj [("hierarchicalMenu", VStr "abc")]) single_index = Ok (VStr "a")
  /\ HierarchicalMenu.getCurrentRefinement (menu_on "length")
       (VObj [("hierarchicalMenu", VStr "abc")]) single_index = Ok (VNum (Int 3))
  /\ HierarchicalMenu.getCurrentRefinement (menu_props (VStr "d"))
       (VObj [("hierarchicalMenu", VStr "abc")]) single_index = Ok (VStr "d").
Proof.
  rewrite !hierarchicalMenu_getCurrentRefinement_reads. repeat split.
Defined.

Lemma hierarchicalMenu_refine_stores (p : HierarchicalMenu.props)
  (st next st' : jsval) (c : context) :
  HierarchicalMenu.refine p st next c = Ok st' ->
  get_path st' (statePath c HierarchicalMenu.namespace (HierarchicalMenu.getId p))
  = Some (if truthy next then next else VStr "").
Proof.
  unfold HierarchicalMenu.refine, statePath,
    HierarchicalMenu.hasMultipleIndex, HierarchicalMenu.getIndex.
  destruct (multiIndexContext c) as [index|].
  - destruct (has st ("indices." ++ index)).
    + destruct (get st "indices") as [indices|]; cbn [bind]; [|discriminate].
      destruct (get indices index) as [atIndex|]; cbn [bind]; [|discriminate].
      destruct (get atIndex HierarchicalMenu.namespace) as [ns|]; cbn [bind];
        [|discriminate].
      intros [= <-]. now read_assigned.
    + destruct (get st "indices") as [indices|]; cbn [bind]; [|discriminate].
      intros [= <-]. now read_assigned.
  - destruct (get st HierarchicalMenu.namespace) as [ns|]; cbn [bind]; [|discriminate].
    intros [= <-]. now read_assigned.
Qed.

(** X2.  What [refine] of the hierarchical menu stores is what
    [getCurrentRefinement] reads next, in a single-index and in a
    multi-index context: the refinement itself, and null for a refinement
    that is falsy (null, undefined, the empty string), which is stored as
    the empty string. *)
Theorem hierarchicalMenu_refine_then_read :
  forall (p : HierarchicalMenu.props) (searchState nextRefinement next : jsval)
         (c : context),
    HierarchicalMenu.refine p searchState nextRefinement c = Ok next ->
    HierarchicalMenu.getCurrentRefinement p next c
    = Ok (if truthy nextRefinement then nextRefinement else VNull).
Proof.
  intros p searchState nextRefinement next c Hrefine.
  apply hierarchicalMenu_refine_stores in Hrefine.
  rewrite (hierarchicalMenu_read_present _ _ _ _ Hrefine).
  destruct (truthy nextRefinement) eqn:E; [|reflexivity].
  now rewrite (truthy_not_empty_string _ E).
Qed.

Lemma hierarchicalMenu_refine_then_read_witness :
  HierarchicalMenu.getCurrentRefinement (menu_props (VStr "a"))
    (VObj [("indices",
            VObj [("first", VObj [("hierarchicalMenu", VObj [("cat", VStr "b > c")])])])])
    multi_index
  = Ok (VStr "b > c").
Proof.
  exact (hierarchicalMenu_refine_then_read (menu_props (VStr "a"))
           (VObj []) (VStr "b > c") _ multi_index eq_refl).
Defined.

(* ===================================================================== *)
(** ** Reading and writing the refinement of the multi range *)
(* ===================================================================== *)

Lemma multiRange_refine_stores (p : MultiRange.props) (st next st' : jsval) (c : context) :
  MultiRange.refine p st next c = Ok st' ->
  get_path st' (statePath c MultiRange.namespace (MultiRange.getId p)) = Some next.
Proof.
  unfold MultiRange.refine, statePath,
    MultiRange.hasMultipleIndex, MultiRange.getIndex.
  destruct (multiIndexContext c) as [index|].
  - destruct (has st ("indices." ++ index)).
    + destruct (get st "indices") as [indices|]; cbn [bind]; [|discriminate].
      destruct (get indices index) as [atIndex|]; cbn [bind]; [|discriminate].
      destruct (get atIndex MultiRange.namespace) as [ns|]; cbn [bind];
        [|discriminate].
      intros [= <-]. now read_assigned.
    + destruct (get st "indices") as [indices|]; cbn [bind]; [|discriminate].
      intros [= <-]. now read_assigned.
  - destruct (get st MultiRange.namespace) as [ns|]; cbn [bind]; [|discriminate].
    intros [= <-]. now read_assigned.
Qed.

Lemma multiRange_refine_stores_then_read (p : MultiRange.props)
  (st next st' : jsval) (c : context) :
  forallb plain_key (statePath c MultiRange.namespace (MultiRange.getId p)) = true ->
  MultiRange.refine p st next c = Ok st' ->
  MultiRange.getCurrentRefinement p st' c = Ok next.
Proof.
  intros Hplain Hrefine.
  apply multiRange_refine_stores in Hrefine.
  rewrite (multiRange_read_present _ _ _ _ Hplain Hrefine).
  destruct (is_empty_string next) eqn:E; [|reflexivity].
  now rewrite (is_empty_string_inv _ E).
Qed.

(** X3.  What [refine] of the multi range stores is what
    [getCurrentRefinement] reads next, whatever the value, when the
    attribute name and the index name are plain keys (the entry is looked
    up by a dotted path). *)
Theorem multiRange_refine_then_read :
  forall (p : MultiRange.props) (searchState nextRefinement next : jsval) (c : context),
    forallb plain_key (statePath c MultiRange.namespace (MultiRange.getId p)) = true ->
    MultiRange.refine p searchState nextRefinement c = Ok next ->
    MultiRange.getCurrentRefinement p next c = Ok nextRefinement.
Proof.
  intros p searchState nextRefinement next c.
  apply multiRange_refine_stores_then_read.
Qed.

Lemma multiRange_refine_then_read_witness :
  MultiRange.getCurrentRefinement (range_props [] (VStr "1:2"))
    (VObj [("query", VStr "shoes"); ("multiRange", VObj [("price", VStr "10:20")])])
    single_index
  = Ok (VStr "10:20").
Proof.
  exact (multiRange_refine_then_read (range_props [] (VStr "1:2"))
           (VObj [("query", VStr "shoes")]) (VStr "10:20") _ single_index
           eq_refl eq_refl).
Defined.

(* ===================================================================== *)
(** ** What refine keeps and what it drops *)
(* ===================================================================== *)

(** X4.  In a multi-index context, [refine] of the hierarchical menu and of
    the multi range write [{[namespace]: ...}] as the whole entry of the
    targeted index: the entry is an object with the one key of the widget's
    namespace, and no other namespace is left under that index.  So the
    hierarchical menu drops what the multi range stored under the index, and
    the other way round. *)
Theorem refine_multi_index_keeps_one_namespace :
  forall (c : context) (index : string) (searchState nextRefinement : jsval),
    multiIndexContext c = Some index ->
    (forall (menu : HierarchicalMenu.props) (menuNext : jsval),
        HierarchicalMenu.refine menu searchState nextRefinement c = Ok menuNext ->
        (exists entry,
            get_path menuNext ["indices"; index]
            = Some (VObj [(HierarchicalMenu.namespace, entry)]))
        /\ (forall other, other <> HierarchicalMenu.namespace ->
                          get_path menuNext ["indices"; index; other] = None))
    /\ (forall (range : MultiRange.props) (rangeNext : jsval),
          MultiRange.refine range searchState nextRefinement c = Ok rangeNext ->
          (exists entry,
              get_path rangeNext ["indices"; index]
              = Some (VObj [(MultiRange.namespace, entry)]))
          /\ (forall other, other <> MultiRange.namespace ->
                            get_path rangeNext ["indices"; index; other] = None)).
Proof.
  intros c index st next Hc.
  assert (Hother : forall ns other : string,
             other <> ns -> (ns =? other)%string = false).
  { intros ns other Hne. apply String.eqb_neq. congruence. }
  split.
  - intros menu menuNext.
    unfold HierarchicalMenu.refine, HierarchicalMenu.hasMultipleIndex,
      HierarchicalMenu.getIndex.
    rewrite Hc.
    destruct (has st ("indices." ++ index)).
    + destruct (get st "indices") as [indices|]; cbn [bind]; [|discriminate].
      destruct (get indices index) as [atIndex|]; cbn [bind]; [|discriminate].
      destruct (get atIndex HierarchicalMenu.namespace) as [ns|]; cbn [bind];
        [|discriminate].
      intros [= <-]. split.
      * eexists. read_assigned. reflexivity.
      * intros other Hne. read_assigned. now rewrite (Hother _ _ Hne).
    + destruct (get st "indices") as [indices|]; cbn [bind]; [|discriminate].
      intros [= <-]. split.
      * eexists. read_assigned. reflexivity.
      * intros other Hne. read_assigned. now rewrite (Hother _ _ Hne).
  - intros range rangeNext.
    unfold MultiRange.refine, MultiRange.hasMultipleIndex, MultiRange.getIndex.
    rewrite Hc.
    destruct (has st ("indices." ++ index)).
    + destruct (get st "indices") as [indices|]; cbn [bind]; [|discriminate].
      destruct (get indices index) as [atIndex|]; cbn [bind]; [|discriminate].
      destruct (get atIndex MultiRange.namespace) as [ns|]; cbn [bind];
        [|discriminate].
      intros [= <-]. split.
      * eexists. read_assigned. reflexivity.
      * intros other Hne. read_assigned. now rewrite (Hother _ _ Hne).
    + destruct (get st "indices") as [indices|]; cbn [bind]; [|discriminate].
      intros [= <-]. split.
      * eexists. read_assigned. reflexivity.
      * intros other Hne. read_assigned. now rewrite (Hother _ _ Hne).
Qed.

Lemma refine_multi_index_keeps_one_namespace_witness :
  exists menuNext rangeNext,
    HierarchicalMenu.refine (menu_props VUndef)
      (one_entry_under_first "multiRange" "price" (VStr "10:20")) (VStr "a") multi_index
    = Ok menuNext
    /\ get_path menuNext ["indices"; "first"; "multiRange"] = None
    /\ MultiRange.refine (range_props [] VUndef)
         (one_entry_under_first "hierarchicalMenu" "cat" (VStr "a")) (VStr "10:20")
         multi_index
       = Ok rangeNext
    /\ get_path rangeNext ["indices"; "first"; "hierarchicalMenu"] = None.
Proof.
  destruct (refine_multi_index_keeps_one_namespace multi_index "first"
              (one_entry_under_first "multiRange" "price" (VStr "10:20")) (VStr "a")
              eq_refl) as [Hmenu _].
  destruct (refine_multi_index_keeps_one_namespace multi_index "first"
              (one_entry_under_first "hierarchicalMenu" "cat" (VStr "a")) (VStr "10:20")
              eq_refl) as [_ Hrange].
  eexists _, _. split; [reflexivity|]. split.
  - refine (proj2 (Hmenu (menu_props VUndef) _ eq_refl) "multiRange" _). discriminate.
  - split; [reflexivity|].
    refine (proj2 (Hrange (range_props [] VUndef) _ eq_refl) "hierarchicalMenu" _).
    discriminate.
Defined.

Lemma lookup_forallb_snd (g : jsval -> bool) (k : string) (x : jsval)
  (ps : list (string * jsval)) :
  forallb (fun kv => g (snd kv)) ps = true ->
  lookup k ps = Some x ->
  g x = true.
Proof.
  induction ps as [|[k' v] r IH]; cbn [forallb lookup snd]; [discriminate|].
  intros H. apply andb_prop in H as [Hv Hr].
  destruct (k' =? k)%string; [now intros [= <-] | now apply IH].
Qed.

(** Outside a multi-index context [refine] writes under the namespace only:
    the rest of the state and the other entries of the namespace stay. *)
Ltac refine_frame Hkeys Hnested :=
  cbn [bind get get_own];
  eexists; split; [reflexivity|]; split;
  [ intros k Hk; cbn [own_props];
    rewrite lookup_set_key_other by exact Hk;
    now apply lookup_spread_copy
  | intros j Hj; read_assigned;
    unfold spread at 1; cbn [own_props fold_left fst snd];
    rewrite lookup_set_key_other by exact Hj;
    match goal with
    | |- context [lookup ?ns ?ps] =>
        destruct (lookup ns ps) as [x|] eqn:E;
        [ rewrite lookup_spread_copy
            by exact (lookup_forallb_snd (fun v => distinct_keys (own_props v))
                        _ _ _ Hnested E);
          reflexivity
        | reflexivity ]
    end ].

(** X5.  Outside a multi-index context, [refine] of the hierarchical menu
    and of the multi range return a state (they do not throw on an object)
    in which every top-level key other than the namespace, and every entry
    of the namespace other than the widget's own, is as it was. *)
Theorem refine_single_index_frame :
  forall (c : context) (ps : list (string * jsval)) (nextRefinement : jsval)
         (menu : HierarchicalMenu.props) (range : MultiRange.props),
    multiIndexContext c = None ->
    distinct_keys ps = true ->
    forallb (fun kv => distinct_keys (own_props (snd kv))) ps = true ->
    (exists next,
        HierarchicalMenu.refine menu (VObj ps) nextRefinement c = Ok next
        /\ (forall k, k <> HierarchicalMenu.namespace ->
                      lookup k (own_props next) = lookup k ps)
        /\ (forall j, j <> HierarchicalMenu.getId menu ->
                      get_path next [HierarchicalMenu.namespace; j]
                      = get_path (VObj ps) [HierarchicalMenu.namespace; j]))
    /\ (exists next,
          MultiRange.refine range (VObj ps) nextRefinement c = Ok next
          /\ (forall k, k <> MultiRange.namespace ->
                        lookup k (own_props next) = lookup k ps)
          /\ (forall j, j <> MultiRange.getId range ->
                        get_path next [MultiRange.namespace; j]
                        = get_path (VObj ps) [MultiRange.namespace; j])).
Proof.
  intros c ps next menu range Hc Hkeys Hnested. split.
  - unfold HierarchicalMenu.refine, HierarchicalMenu.hasMultipleIndex. rewrite Hc.
    refine_frame Hkeys Hnested.
  - unfold MultiRange.refine, MultiRange.hasMultipleIndex. rewrite Hc.
    refine_frame Hkeys Hnested.
Qed.

Lemma refine_single_index_frame_witness :
  exists next,
    MultiRange.refine (range_props [] VUndef)
      (VObj [("query", VStr "shoes"); ("multiRange", VObj [("rating", VStr "4:")])])
      (VStr "10:20") single_index = Ok next
    /\ lookup "query" (own_props next) = Some (VStr "shoes")
    /\ get_path next ["multiRange"; "rating"] = Some (VStr "4:").
Proof.
  destruct (refine_single_index_frame single_index
              [("query", VStr "shoes"); ("multiRange", VObj [("rating", VStr "4:")])]
              (VStr "10:20") (menu_props VUndef) (range_props [] VUndef)
              eq_refl eq_refl eq_refl) as [_ (next & Hrun & Htop & Hns)].
  exists next. split; [exact Hrun|]. split.
  - rewrite Htop by discriminate. reflexivity.
  - rewrite Hns by discriminate. reflexivity.
Defined.

(* ===================================================================== *)
(** ** cleanUp of the multi range outside a multi-index context *)
(* ===================================================================== *)

Lemma forallb_keys_set_key {A} (f : string -> bool) (k : string) (v : A)
  (ps : list (string * A)) :
  forallb f (map fst ps) = true -> f k = true ->
  forallb f (map fst (set_key k v ps)) = true.
Proof.
  intros H Hk. induction ps as [|[k' v'] r IH]; cbn [set_key map fst forallb] in *.
  - now rewrite Hk.
  - apply andb_prop in H as [Hk' Hr].
    destruct (k' =? k)%string; cbn [map fst forallb]; [now rewrite Hk, Hr|].
    now rewrite Hk', (IH Hr).
Qed.

Lemma forallb_keys_remove_key {A} (f : string -> bool) (k : string)
  (ps : list (string * A)) :
  forallb f (map fst ps) = true ->
  forallb f (map fst (remove_key k ps)) = true.
Proof.
  intros H. induction ps as [|[k' v'] r IH]; cbn [remove_key map fst forallb] in *;
    [reflexivity|].
  apply andb_prop in H as [Hk' Hr].
  destruct (k' =? k)%string; cbn [map fst forallb]; [now apply IH|].
  now rewrite Hk', (IH Hr).
Qed.

Lemma baseUnset_last_key (x : jsval) (id : string) :
  (forall s, x <> VStr s) ->
  get_own (baseUnset x [id]) id = None
  /\ lookup id (own_props (baseUnset x [id])) = None
  /\ (forall j, j <> id ->
                lookup j (own_props (baseUnset x [id])) = lookup j (own_props x))
  /\ (isEmpty (baseUnset x [id]) = true ->
      forall j, j <> id -> lookup j (own_props x) = None).
Proof.
  intros Hx.
  destruct x as [| | | |s|qs]; cbn [baseUnset get_own own_props lookup isEmpty];
    try (repeat split; reflexivity).
  { now elim (Hx s). }
  repeat split.
  - apply lookup_remove_key_same.
  - apply lookup_remove_key_same.
  - intros j Hj. now apply lookup_remove_key_other.
  - intros Hempty j Hj. apply (remove_key_all id j qs); [|exact Hj].
    destruct (remove_key id qs); [reflexivity | discriminate].
Qed.

(** X6.  Outside a multi-index context, [cleanUp] of the multi range on an
    object returns a state without the entry of the widget, in which every
    other top-level key and every other entry of the namespace is as it was,
    and in which the namespace is not left as an empty object; from that
    state the widget reads its default refinement, or [''].  The attribute
    name and the top-level keys of the state are plain keys, and the
    namespace does not hold a string (the characters and the [length] of a
    string cannot be deleted). *)
Theorem multiRange_cleanUp_single_index_frame :
  forall (p : MultiRange.props) (ps : list (string * jsval)) (c : context),
    multiIndexContext c = None ->
    plain_key (MultiRange.getId p) = true ->
    forallb plain_key (map fst ps) = true ->
    (forall s, lookup MultiRange.namespace ps <> Some (VStr s)) ->
    exists next,
      MultiRange.cleanUp p (VObj ps) c = Ok next
      /\ get_path next [MultiRange.namespace; MultiRange.getId p] = None
      /\ (forall k, k <> MultiRange.namespace -> lookup k (own_props next) = lookup k ps)
      /\ (forall j, j <> MultiRange.getId p ->
                    get_path next [MultiRange.namespace; j]
                    = get_path (VObj ps) [MultiRange.namespace; j])
      /\ lookup MultiRange.namespace (own_props next) <> Some (VObj [])
      /\ MultiRange.getCurrentRefinement p next c
         = Ok (if truthy (MultiRange.defaultRefinement p)
               then MultiRange.defaultRefinement p else VStr "").
Proof.
  intros p ps c Hc Hid Hkeys Hstring.
  assert (Hplain : forallb plain_key (statePath c MultiRange.namespace (MultiRange.getId p))
                   = true).
  { unfold statePath. rewrite Hc. cbn [forallb]. now rewrite Hid. }
  destruct (multiRange_dotted_split c _ Hplain) as [Hdot Hsplit].
  assert (Hread : forall next,
             forallb plain_key (map fst (own_props next)) = true ->
             get_own_path next [MultiRange.namespace; MultiRange.getId p] = None ->
             MultiRange.getCurrentRefinement p next c
             = Ok (if truthy (MultiRange.defaultRefinement p)
                   then MultiRange.defaultRefinement p else VStr "")).
  { intros next Hk Hnone. apply multiRange_read_no_entry; [exact Hplain | |].
    - exact (hasOwn_dotted next _ Hk Hdot).
    - unfold statePath. now rewrite Hc. }
  unfold multiRange_dotted, statePath in Hdot, Hsplit. rewrite Hc in Hdot, Hsplit.
  assert (Homit : omit (VObj ps) (MultiRange.namespace ++ "." ++ MultiRange.getId p)
                  = match lookup MultiRange.namespace ps with
                    | Some x =>
                        VObj (set_key MultiRange.namespace
                                (baseUnset x [MultiRange.getId p]) ps)
                    | None => VObj ps
                    end).
  { unfold omit, castPath.
    rewrite Hdot, (hasOwn_dotted (VObj ps) _ Hkeys Hdot), Hsplit. reflexivity. }
  unfold MultiRange.cleanUp, MultiRange.hasMultipleIndex. rewrite Hc.
  cbn [bind]. cbv zeta. rewrite Homit.
  destruct (lookup MultiRange.namespace ps) as [x|] eqn:Ens.
  - assert (Hx : forall s, x <> VStr s) by (intros s ->; now elim (Hstring s)).
    destruct (baseUnset_last_key x (MultiRange.getId p) Hx)
      as (Hown & Hgone & Hothers & Hempty).
    remember (baseUnset x [MultiRange.getId p]) as y eqn:Ey. clear Ey.
    cbn [get get_own own_props]. rewrite lookup_set_key_same. cbn [bind].
    destruct (isEmpty y) eqn:Eempty.
    + eexists. split; [reflexivity|].
      change (omit ?s MultiRange.namespace)
        with (VObj (remove_key MultiRange.namespace (own_props s))).
      cbn [own_props get_path].
      assert (Hns : lookup MultiRange.namespace
                      (remove_key MultiRange.namespace
                         (set_key MultiRange.namespace y ps)) = None)
        by apply lookup_remove_key_same.
      rewrite Hns. repeat split.
      * intros k Hk. rewrite lookup_remove_key_other by exact Hk.
        now apply lookup_set_key_other.
      * intros j Hj. rewrite Ens. symmetry.
        rewrite (Hempty eq_refl j Hj). reflexivity.
      * discriminate.
      * apply Hread; [|cbn [get_own_path get_own own_props]; now rewrite Hns].
        apply forallb_keys_remove_key. now apply forallb_keys_set_key.
    + eexists. split; [reflexivity|].
      cbn [own_props get_path]. rewrite lookup_set_key_same, Hgone. repeat split.
      * intros k Hk. now apply lookup_set_key_other.
      * intros j Hj. rewrite Ens. now rewrite (Hothers j Hj).
      * intros [= ->]. discriminate Eempty.
      * apply Hread; [now apply forallb_keys_set_key|].
        cbn [get_own_path get_own own_props]. now rewrite lookup_set_key_same, Hown.
  - cbn [get get_own own_props]. rewrite Ens. cbn [bind isEmpty].
    eexists. split; [reflexivity|].
    change (omit ?s MultiRange.namespace)
      with (VObj (remove_key MultiRange.namespace (own_props s))).
    cbn [own_props get_path].
    assert (Hns : lookup MultiRange.namespace (remove_key MultiRange.namespace ps) = None)
      by apply lookup_remove_key_same.
    rewrite Hns. repeat split.
    + intros k Hk. now apply lookup_remove_key_other.
    + intros j Hj. now rewrite Ens.
    + discriminate.
    + apply Hread; [now apply forallb_keys_remove_key|].
      cbn [get_own_path get_own own_props]. now rewrite Hns.
Qed.

Lemma multiRange_cleanUp_single_index_frame_witness :
  exists next,
    MultiRange.cleanUp (range_props [] (VStr "5:10"))
      (VObj [("query", VStr "shoes");
             ("multiRange", VObj [("price", VStr "10:20"); ("rating", VStr "4:")])])
      single_index = Ok next
    /\ get_path next ["multiRange"; "price"] = None
    /\ get_path next ["multiRange"; "rating"] = Some (VStr "4:")
    /\ MultiRange.getCurrentRefinement (range_props [] (VStr "5:10")) next single_index
       = Ok (VStr "5:10").
Proof.
  destruct (multiRange_cleanUp_single_index_frame (range_props [] (VStr "5:10"))
              [("query", VStr "shoes");
               ("multiRange", VObj [("price", VStr "10:20"); ("rating", VStr "4:")])]
              single_index eq_refl eq_refl eq_refl
              ltac:(intros s; discriminate))
    as (next & Hrun & Hgone & _ & Hothers & _ & Hread).
  exists next. split; [exact Hrun|]. split; [exact Hgone|]. split; [|exact Hread].
  rewrite Hothers by discriminate. reflexivity.
Defined.

(** X26.  The characters of a string cannot be deleted: on the state
    [{multiRange: 'ab'}], [cleanUp] of a multi range on the attribute [0]
    returns the state as it was, and the widget still reads ['a'] from
    it. *)
Theorem multiRange_cleanUp_keeps_string_characters :
  MultiRange.cleanUp (range_on "0") (VObj [("multiRange", VStr "ab")]) single_index
  = Ok (VObj [("multiRange", VStr "ab")])
  /\ MultiRange.getCurrentRefinement (range_on "0")
       (VObj [("multiRange", VStr "ab")]) single_index
     = Ok (VStr "a").
Proof. split; reflexivity. Qed.

(* ===================================================================== *)
(** ** The sort by: refine, read, cleanUp *)
(* ===================================================================== *)

Lemma sortBy_refine_shape (p : SortBy.props) (st next : jsval) (c : context) :
  SortBy.refine p st next c
  = VObj (match multiIndexContext c with
          | Some index =>
              set_key "indices" (VObj [(index, VObj [("sortBy", next)])]) (spread [] st)
          | None => set_key "sortBy" next (spread [] st)
          end).
Proof. unfold SortBy.refine. now destruct (multiIndexContext c). Qed.

(** X7.  [refine] of the sort by writes one top-level key and keeps the
    others: outside a multi-index context the state gets [sortBy] set to
    the refinement and every other key stays; in a multi-index context
    every key other than [indices] stays. *)
Theorem sortBy_refine_frame :
  forall (p : SortBy.props) (searchState nextRefinement : jsval) (c : context),
    distinct_keys (own_props searchState) = true ->
    let next := SortBy.refine p searchState nextRefinement c in
    match multiIndexContext c with
    | Some _ =>
        forall k, k <> "indices" ->
                  lookup k (own_props next) = lookup k (own_props searchState)
    | None =>
        lookup "sortBy" (own_props next) = Some nextRefinement
        /\ (forall k, k <> "sortBy" ->
                      lookup k (own_props next) = lookup k (own_props searchState))
    end.
Proof.
  intros p st nextRefinement c Hkeys next. subst next.
  rewrite sortBy_refine_shape.
  destruct (multiIndexContext c); cbn [own_props].
  - intros k Hk. rewrite lookup_set_key_other by exact Hk.
    now apply lookup_spread_copy.
  - split; [apply lookup_set_key_same|].
    intros k Hk. rewrite lookup_set_key_other by exact Hk.
    now apply lookup_spread_copy.
Qed.

Lemma sortBy_refine_frame_witness :
  lookup "sortBy"
    (own_props (SortBy.refine {| SortBy.defaultRefinement := VUndef |}
                  (VObj [("otherKey", VStr "val")]) (VStr "yep") single_index))
  = Some (VStr "yep")
  /\ (forall k, k <> "sortBy" ->
        lookup k
          (own_props (SortBy.refine {| SortBy.defaultRefinement := VUndef |}
                        (VObj [("otherKey", VStr "val")]) (VStr "yep") single_index))
        = lookup k [("otherKey", VStr "val")]).
Proof.
  exact (sortBy_refine_frame {| SortBy.defaultRefinement := VUndef |}
           (VObj [("otherKey", VStr "val")]) (VStr "yep") single_index eq_refl).
Defined.

(** The dotted string the sort by hands to [has]. *)
Lemma sortBy_dotted_split (index : string) :
  plain_key index = true ->
  contains "." ("indices." ++ index ++ "." ++ SortBy.getId) = true
  /\ stringToPath ("indices." ++ index ++ "." ++ SortBy.getId)
     = ["indices"; index; "sortBy"].
Proof.
  intros Hindex. apply plain_key_no_dot in Hindex.
  change ("indices." ++ index ++ "." ++ SortBy.getId)
    with ("indices" ++ String "." (index ++ String "." "sortBy")).
  split; [apply contains_app_sep|]. unfold stringToPath.
  rewrite split_app_sep by reflexivity.
  now rewrite split_app_sep by exact Hindex.
Qed.

(** X8.  In a multi-index context whose index name is a plain key, what
    [refine] of the sort by stores is what is read next, whatever the value
    (a falsy one too), and [getSearchParameters] sets the index of the
    builder to it. *)
Theorem sortBy_refine_then_read_multi_index :
  forall (p : SortBy.props) (searchState nextRefinement : jsval) (c : context)
         (index : string) (sp : SearchParameters.t),
    multiIndexContext c = Some index ->
    plain_key index = true ->
    let next := SortBy.refine p searchState nextRefinement c in
    SortBy.getCurrentRefinement p next (SortBy.getIndex c) = Ok nextRefinement
    /\ SortBy.getSearchParameters sp p next c
       = Ok (SearchParameters.setIndex nextRefinement sp).
Proof.
  intros p st nextRefinement c index sp Hc Hindex next.
  assert (Hread : SortBy.getCurrentRefinement p next (SortBy.getIndex c)
                  = Ok nextRefinement).
  { subst next. rewrite sortBy_refine_shape. unfold SortBy.getIndex. rewrite Hc.
    destruct (sortBy_dotted_split index Hindex) as [Hdot Hsplit].
    assert (Hpath : get_path
                      (VObj (set_key "indices" (VObj [(index, VObj [("sortBy", nextRefinement)])])
                               (spread [] st)))
                      ["indices"; index; "sortBy"] = Some nextRefinement)
      by now read_assigned.
    unfold SortBy.getCurrentRefinement. cbn [SortBy.index_key].
    rewrite (has_dotted_present _ _ _ _ Hdot Hsplit Hpath).
    unfold SortBy.getId. now read_path Hpath. }
  split; [exact Hread|].
  unfold SortBy.getSearchParameters. now rewrite Hread.
Qed.

Lemma sortBy_refine_then_read_multi_index_witness :
  SortBy.getCurrentRefinement {| SortBy.defaultRefinement := VStr "relevance" |}
    (SortBy.refine {| SortBy.defaultRefinement := VStr "relevance" |}
       (VObj []) (VStr "price_asc") multi_index)
    (Some "first")
  = Ok (VStr "price_asc").
Proof.
  exact (proj1 (sortBy_refine_then_read_multi_index
                  {| SortBy.defaultRefinement := VStr "relevance" |}
                  (VObj []) (VStr "price_asc") multi_index "first"
                  (SearchParameters.make []) eq_refl eq_refl)).
Defined.

(** Outside a multi-index context the sort by asks [has] for the path
    [indices.undefined.sortBy]. *)
Lemma sortBy_read_single_index (p : SortBy.props) (st : jsval) :
  forallb plain_key (map fst (own_props st)) = true ->
  get_path st ["indices"; "undefined"; "sortBy"] = None ->
  SortBy.getCurrentRefinement p st None
  = (stored <- get st "sortBy" ;;
     if truthy stored then Ok stored
     else if truthy (SortBy.defaultRefinement p) then Ok (SortBy.defaultRefinement p)
     else Ok VNull).
Proof.
  intros Hkeys Hnone.
  destruct (sortBy_dotted_split "undefined" eq_refl) as [Hdot Hsplit].
  rewrite <- (get_own_path_not_length ["indices"; "undefined"; "sortBy"] eq_refl)
    in Hnone.
  unfold SortBy.getCurrentRefinement. cbn [SortBy.index_key SortBy.no_index andb].
  now rewrite (has_dotted_absent _ _ _ Hdot Hsplit Hkeys Hnone).
Qed.

Lemma forallb_keys_spread (f : string -> bool) (v : jsval) :
  forallb f (map fst (own_props v)) = true ->
  forall acc,
    forallb f (map fst acc) = true ->
    forallb f (map fst (spread acc v)) = true.
Proof.
  unfold spread. generalize (own_props v) as qs.
  induction qs as [|[k x] r IH]; intros Hqs acc Hacc; cbn [fold_left fst snd];
    [exact Hacc|].
  cbn [map fst forallb] in Hqs. apply andb_prop in Hqs as [Hk Hr].
  apply IH; [exact Hr | now apply forallb_keys_set_key].
Qed.

(** X9.  Outside a multi-index context, on a state with plain top-level
    keys and nothing stored under [indices.undefined.sortBy], the sort by
    reads after [refine] the refinement just stored when it is truthy, and
    else the default refinement of the props, or null; and
    [getSearchParameters] sets the index of the builder to that value. *)
Theorem sortBy_refine_then_read_single_index :
  forall (p : SortBy.props) (searchState nextRefinement : jsval) (c : context)
         (sp : SearchParameters.t),
    multiIndexContext c = None ->
    distinct_keys (own_props searchState) = true ->
    forallb plain_key (map fst (own_props searchState)) = true ->
    get_path searchState ["indices"; "undefined"; "sortBy"] = None ->
    let next := SortBy.refine p searchState nextRefinement c in
    let read :=
      if truthy nextRefinement then nextRefinement
      else if truthy (SortBy.defaultRefinement p) then SortBy.defaultRefinement p
      else VNull in
    SortBy.getCurrentRefinement p next (SortBy.getIndex c) = Ok read
    /\ SortBy.getSearchParameters sp p next c = Ok (SearchParameters.setIndex read sp).
Proof.
  intros p st nextRefinement c sp Hc Hdistinct Hkeys Hnone next read.
  assert (Hread : SortBy.getCurrentRefinement p next (SortBy.getIndex c) = Ok read).
  { subst next read. rewrite sortBy_refine_shape. unfold SortBy.getIndex. rewrite Hc.
    rewrite sortBy_read_single_index.
    - cbn [get get_own own_props]. rewrite lookup_set_key_same. cbn [bind].
      now destruct (truthy nextRefinement), (truthy (SortBy.defaultRefinement p)).
    - cbn [own_props]. apply forallb_keys_set_key; [|reflexivity].
      now apply forallb_keys_spread.
    - cbn [get_path own_props].
      rewrite lookup_set_key_other by discriminate.
      rewrite lookup_spread_copy by exact Hdistinct.
      exact Hnone. }
  split; [exact Hread|].
  unfold SortBy.getSearchParameters. now rewrite Hread.
Qed.

Lemma sortBy_refine_then_read_single_index_witness :
  SortBy.getSearchParameters (SearchParameters.make [])
    {| SortBy.defaultRefinement := VStr "relevance_asc" |}
    (SortBy.refine {| SortBy.defaultRefinement := VStr "relevance_asc" |}
       (VObj []) (VStr "price_asc") single_index)
    single_index
  = Ok (SearchParameters.setIndex (VStr "price_asc") (SearchParameters.make [])).
Proof.
  exact (proj2 (sortBy_refine_then_read_single_index
                  {| SortBy.defaultRefinement := VStr "relevance_asc" |}
                  (VObj []) (VStr "price_asc") single_index (SearchParameters.make [])
                  eq_refl eq_refl eq_refl eq_refl)).
Defined.

Lemma omit_plain_key (st : jsval) (k : string) :
  contains "." k = false ->
  own_props (omit st k) = remove_key k (own_props st).
Proof.
  intros Hk. unfold omit, castPath. rewrite Hk. cbn [negb].
  destruct st; reflexivity.
Qed.

(** X10.  Outside a multi-index context, [cleanUp] of the sort by returns
    the state without its [sortBy] key and with every other key as it was,
    and the widget then reads its default refinement, or null (on a state
    with plain top-level keys and nothing under
    [indices.undefined.sortBy]). *)
Theorem sortBy_cleanUp_single_index :
  forall (p : SortBy.props) (searchState : jsval) (c : context),
    multiIndexContext c = None ->
    forallb plain_key (map fst (own_props searchState)) = true ->
    get_path searchState ["indices"; "undefined"; "sortBy"] = None ->
    exists next,
      SortBy.cleanUp p searchState c = Ok next
      /\ lookup "sortBy" (own_props next) = None
      /\ (forall k, k <> "sortBy" ->
                    lookup k (own_props next) = lookup k (own_props searchState))
      /\ SortBy.getCurrentRefinement p next (SortBy.getIndex c)
         = Ok (if truthy (SortBy.defaultRefinement p)
               then SortBy.defaultRefinement p else VNull).
Proof.
  intros p st c Hc Hkeys Hnone.
  unfold SortBy.cleanUp, SortBy.getIndex. rewrite Hc.
  eexists. split; [reflexivity|].
  pose proof (omit_plain_key st SortBy.getId eq_refl) as Hprops.
  assert (Hgone : lookup "sortBy" (own_props (omit st SortBy.getId)) = None).
  { rewrite Hprops. apply lookup_remove_key_same. }
  assert (Hkept : forall k, k <> "sortBy" ->
                            lookup k (own_props (omit st SortBy.getId))
                            = lookup k (own_props st)).
  { intros k Hk. rewrite Hprops. now apply lookup_remove_key_other. }
  split; [exact Hgone|]. split; [exact Hkept|].
  rewrite sortBy_read_single_index.
  - assert (Hobj : exists qs, omit st SortBy.getId = VObj qs).
    { unfold omit. destruct st; eexists; reflexivity. }
    destruct Hobj as [qs Hqs]. rewrite Hqs in Hgone |- *. cbn [own_props] in Hgone.
    cbn [get get_own own_props]. rewrite Hgone. cbn [bind truthy].
    now destruct (truthy (SortBy.defaultRefinement p)).
  - rewrite Hprops. now apply forallb_keys_remove_key.
  - cbn [get_path]. rewrite Hkept by discriminate. exact Hnone.
Qed.

Lemma sortBy_cleanUp_single_index_witness :
  exists next,
    SortBy.cleanUp {| SortBy.defaultRefinement := VUndef |}
      (VObj [("sortBy", VStr "price_asc"); ("another", VObj [("searchState", VStr "searchState")])])
      single_index = Ok next
    /\ lookup "sortBy" (own_props next) = None
    /\ lookup "another" (own_props next) = Some (VObj [("searchState", VStr "searchState")]).
Proof.
  destruct (sortBy_cleanUp_single_index {| SortBy.defaultRefinement := VUndef |}
              (VObj [("sortBy", VStr "price_asc");
                     ("another", VObj [("searchState", VStr "searchState")])])
              single_index eq_refl eq_refl eq_refl) as (next & Hrun & Hgone & Hkept & _).
  exists next. split; [exact Hrun|]. split; [exact Hgone|].
  rewrite Hkept by discriminate. reflexivity.
Defined.

(** X11.  In a multi-index context, on a state whose [indices] is an
    object, [cleanUp] of the sort by writes [{[index]: ...}] as the whole of
    [indices]: under the targeted index [sortBy] is gone and the other
    namespaces stay, and every other index is dropped. *)
Theorem sortBy_cleanUp_multi_index :
  forall (p : SortBy.props) (searchState : jsval) (c : context) (index : string)
         (indices : list (string * jsval)),
    multiIndexContext c = Some index ->
    lookup "indices" (own_props searchState) = Some (VObj indices) ->
    exists next,
      SortBy.cleanUp p searchState c = Ok next
      /\ get_path next ["indices"; index; "sortBy"] = None
      /\ (forall namespace, namespace <> "sortBy" ->
            get_path next ["indices"; index; namespace]
            = get_path searchState ["indices"; index; namespace])
      /\ (forall other, other <> index -> get_path next ["indices"; other] = None).
Proof.
  intros p st c index indices Hc Hindices.
  unfold SortBy.cleanUp. rewrite Hc.
  rewrite (lookup_own_props_get _ _ _ Hindices). cbn [bind truthy get get_own own_props].
  eexists. split; [reflexivity|].
  set (atIndex := match lookup index indices with Some x => x | None => VUndef end).
  pose proof (omit_plain_key atIndex SortBy.getId eq_refl) as Hprops.
  cbn [get_path own_props]. rewrite Hindices, !lookup_spread_single.
  cbn [own_props lookup].
  repeat split.
  - rewrite String.eqb_refl, Hprops. unfold SortBy.getId.
    now rewrite lookup_remove_key_same.
  - intros namespace Hns. rewrite String.eqb_refl, Hprops. unfold SortBy.getId.
    rewrite lookup_remove_key_other by exact Hns.
    subst atIndex. now destruct (lookup index indices).
  - intros other Hother.
    destruct (index =? other)%string eqn:E; [|reflexivity].
    apply String.eqb_eq in E. congruence.
Qed.

Lemma sortBy_cleanUp_multi_index_witness :
  exists next,
    SortBy.cleanUp {| SortBy.defaultRefinement := VUndef |}
      (VObj [("indices",
              VObj [("first", VObj [("sortBy", VStr "a"); ("page", VStr "2")]);
                    ("second", VObj [("sortBy", VStr "b")])])])
      multi_index = Ok next
    /\ get_path next ["indices"; "first"; "sortBy"] = None
    /\ get_path next ["indices"; "first"; "page"] = Some (VStr "2")
    /\ get_path next ["indices"; "second"] = None.
Proof.
  destruct (sortBy_cleanUp_multi_index {| SortBy.defaultRefinement := VUndef |}
              (VObj [("indices",
                      VObj [("first", VObj [("sortBy", VStr "a"); ("page", VStr "2")]);
                            ("second", VObj [("sortBy", VStr "b")])])])
              multi_index "first" _ eq_refl eq_refl)
    as (next & Hrun & Hgone & Hkept & Hdropped).
  exists next. split; [exact Hrun|]. split; [exact Hgone|]. split.
  - rewrite Hkept by discriminate. reflexivity.
  - apply Hdropped. discriminate.
Defined.

(* ===================================================================== *)
(** ** The items of the sort by *)
(* ===================================================================== *)

Lemma refined_count (cur : jsval) (items : list SortBy.item) :
  distinct_strings (map SortBy.value items) = true ->
  (List.length (filter (fun i => eq_string cur (SortBy.value i)) items) <= 1)%nat.
Proof.
  induction items as [|i r IH]; cbn [map distinct_strings filter]; [simpl; lia|].
  intros H. apply andb_prop in H as [Hi Hr]. apply negb_true_iff in Hi.
  destruct (eq_string cur (SortBy.value i)) eqn:E; [|now apply IH].
  cbn [List.length].
  assert (Hnone : filter (fun j => eq_string cur (SortBy.value j)) r = []).
  { destruct cur; try discriminate. cbn [eq_string] in *.
    apply String.eqb_eq in E. subst s.
    clear IH Hr. induction r as [|j r IH]; [reflexivity|].
    cbn [map existsb filter] in *. apply orb_false_iff in Hi as [Hj Hr].
    rewrite Hj. now apply IH. }
  rewrite Hnone. simpl. lia.
Qed.

(** X12.  [getProvidedProps] of the sort by, without [transformItems],
    hands back the supplied items in their order, each flagged [isRefined]
    exactly when its value is the current refinement; when the supplied
    values are pairwise different, at most one item is refined. *)
Theorem sortBy_getProvidedProps_flags :
  forall (p : SortBy.props) (items : list SortBy.item) (searchState : jsval)
         (c : context) (r : SortBy.providedProps),
    SortBy.getProvidedProps p items None searchState c = Ok r ->
    SortBy.getCurrentRefinement p searchState (SortBy.getIndex c)
    = Ok (SortBy.currentRefinement r)
    /\ map SortBy.provided (SortBy.provided_items r) = items
    /\ (forall i, In i (SortBy.provided_items r) ->
                  SortBy.isRefined i
                  = eq_string (SortBy.currentRefinement r) (SortBy.value (SortBy.provided i)))
    /\ (distinct_strings (map SortBy.value items) = true ->
        (List.length (filter SortBy.isRefined (SortBy.provided_items r)) <= 1)%nat).
Proof.
  intros p items st c r. unfold SortBy.getProvidedProps.
  destruct (SortBy.getCurrentRefinement p st (SortBy.getIndex c)) as [cur|];
    cbn [bind]; [|discriminate].
  intros [= <-]. cbn [SortBy.provided_items SortBy.currentRefinement].
  split; [reflexivity|]. split; [|split].
  - rewrite map_map. rewrite <- (map_id items) at 2. apply map_ext.
    intros i. now destruct (eq_string cur (SortBy.value i)).
  - intros i Hin. apply in_map_iff in Hin as (j & <- & _).
    now destruct (eq_string cur (SortBy.value j)) eqn:E.
  - intros Hdistinct.
    pose proof (refined_count cur items Hdistinct) as Hcount.
    assert (Hlen : forall l,
               List.length
                 (filter SortBy.isRefined
                    (map (fun i => if eq_string cur (SortBy.value i)
                                   then SortBy.mkProvidedItem i true
                                   else SortBy.mkProvidedItem i false) l))
               = List.length (filter (fun i => eq_string cur (SortBy.value i)) l)).
    { induction l as [|i l IH]; [reflexivity|]. cbn [map filter].
      destruct (eq_string cur (SortBy.value i)); cbn [SortBy.isRefined List.length];
        now rewrite IH. }
    now rewrite Hlen.
Qed.

Lemma sortBy_getProvidedProps_flags_witness :
  exists r,
    SortBy.getProvidedProps {| SortBy.defaultRefinement := VUndef |}
      [SortBy.mkItem VUndef "yep"; SortBy.mkItem VUndef "yep"] None
      (VObj [("sortBy", VStr "yep")]) single_index = Ok r
    /\ map SortBy.provided (SortBy.provided_items r)
       = [SortBy.mkItem VUndef "yep"; SortBy.mkItem VUndef "yep"]
    /\ map SortBy.isRefined (SortBy.provided_items r) = [true; true].
Proof.
  eexists. split; [reflexivity|]. split; [|reflexivity].
  exact (proj1 (proj2
           (sortBy_getProvidedProps_flags {| SortBy.defaultRefinement := VUndef |}
              [SortBy.mkItem VUndef "yep"; SortBy.mkItem VUndef "yep"]
              (VObj [("sortBy", VStr "yep")]) single_index _ eq_refl))).
Defined.

(* ===================================================================== *)
(** ** The codec and the search parameters of the multi range, end to end *)
(* ===================================================================== *)

Lemma half_text_coalesce (v : jsval) :
  is_undefined (coalesce_null v) = false
  /\ (if truthy (coalesce_null v) then to_string (coalesce_null v) else "")
     = (if truthy v then to_string v else "").
Proof. destruct v; split; reflexivity. Qed.

(** X13.  For bounds that are absent (undefined or null) or safe integers
    (below [2^53] in magnitude) other than 0, [parseItem] decodes what
    [stringifyItem] encodes to the same bounds, absent ones as null; and
    encoding the decoded range again gives the same string, except that the
    range without any bound, encoded as [''], comes back as [':']. *)
Theorem codec_round_trip_away_from_zero :
  forall a b : jsval,
    is_nonzero_bound a = true ->
    is_nonzero_bound b = true ->
    MultiRange.parseItem (VStr (MultiRange.stringifyItem (MultiRange.mkRange a b)))
    = Ok (MultiRange.mkRange (coalesce_null a) (coalesce_null b))
    /\ MultiRange.stringifyItem (MultiRange.mkRange (coalesce_null a) (coalesce_null b))
       = (if is_undefined a && is_undefined b then ":"
          else MultiRange.stringifyItem (MultiRange.mkRange a b)).
Proof.
  intros a b Ha Hb. split; [now apply codec_round_trip_nonzero|].
  destruct (half_text_coalesce a) as [Hua Hta].
  destruct (half_text_coalesce b) as [Hub Htb].
  unfold MultiRange.stringifyItem. cbn [MultiRange.start MultiRange.end_].
  rewrite Hua, Hta, Htb. cbn [andb].
  destruct (is_undefined a && is_undefined b) eqn:E; [|reflexivity].
  apply andb_prop in E as [Ea Eb].
  destruct a; try discriminate; destruct b; try discriminate. reflexivity.
Qed.

Lemma codec_round_trip_away_from_zero_witness :
  MultiRange.parseItem
    (VStr (MultiRange.stringifyItem (MultiRange.mkRange (VNum (Int (-30))) VUndef)))
  = Ok (MultiRange.mkRange (VNum (Int (-30))) VNull)
  /\ MultiRange.stringifyItem (MultiRange.mkRange VNull VNull) = ":".
Proof.
  split.
  - exact (proj1 (codec_round_trip_away_from_zero (VNum (Int (-30))) VUndef
                    eq_refl eq_refl)).
  - exact (proj2 (codec_round_trip_away_from_zero VUndef VUndef eq_refl eq_refl)).
Defined.

(** X27.  From [1e21] on a number prints in exponent form, and the codec
    does not round-trip: the item [{start: 1e21}] is encoded as
    ['1e+21:'], which [parseItem] decodes to [{start: 1, end: null}]. *)
Theorem codec_exponent_form :
  MultiRange.stringifyItem (MultiRange.mkRange (VNum (Int ten_to_21)) VUndef) = "1e+21:"
  /\ MultiRange.parseItem
       (VStr (MultiRange.stringifyItem (MultiRange.mkRange (VNum (Int ten_to_21)) VUndef)))
     = Ok (MultiRange.mkRange (VNum (Int 1)) VNull).
Proof. split; vm_compute; reflexivity. Qed.

(** X14.  On every string that is not empty and holds no [:], [parseItem]
    throws: the second half is missing. *)
Theorem parseItem_throws_on_unseparated :
  forall value : string,
    value <> "" ->
    contains ":" value = false ->
    MultiRange.parseItem (VStr value) = Throw TypeError.
Proof. exact parseItem_without_separator. Qed.

Lemma parseItem_throws_on_unseparated_witness :
  MultiRange.parseItem (VStr "10-20") = Throw TypeError.
Proof.
  refine (parseItem_throws_on_unseparated "10-20" _ eq_refl). discriminate.
Defined.

(** The bound sent for a decoded bound: itself when it is a number. *)
Lemma sent_coalesce (attributeName operator : string) (v : jsval) :
  is_nonzero_bound v = true ->
  sent attributeName operator (coalesce_null v)
  = match v with
    | VNum _ => [(attributeName, operator, v)]
    | _ => []
    end.
Proof.
  destruct v as [| | |n| |]; try discriminate; try reflexivity.
  destruct n; try discriminate. cbn [is_nonzero_bound coalesce_null]. unfold sent.
  cbn [truthy]. intros H. apply andb_prop in H as [-> _]. reflexivity.
Qed.

(** X15.  When the current refinement is the encoding of an item whose
    bounds are absent or safe integers other than 0, [getSearchParameters]
    of the multi range adds to the numeric refinements [>=] with the start
    and [<=] with the end, for the bounds the item has. *)
Theorem multiRange_getSearchParameters_of_item :
  forall (sp : SearchParameters.t) (p : MultiRange.props) (searchState : jsval)
         (c : context) (a b : jsval),
    is_nonzero_bound a = true ->
    is_nonzero_bound b = true ->
    MultiRange.getCurrentRefinement p searchState c
    = Ok (VStr (MultiRange.stringifyItem (MultiRange.mkRange a b))) ->
    exists sp',
      MultiRange.getSearchParameters sp p searchState c = Ok sp'
      /\ SearchParameters.numericRefinements sp'
         = (SearchParameters.numericRefinements sp
            ++ match a with
               | VNum _ => [(MultiRange.attributeName p, ">=", a)]
               | _ => []
               end
            ++ match b with
               | VNum _ => [(MultiRange.attributeName p, "<=", b)]
               | _ => []
               end)%list.
Proof.
  intros sp p st c a b Ha Hb Hcur.
  unfold MultiRange.getSearchParameters. rewrite Hcur. cbn [bind].
  rewrite (codec_round_trip_nonzero a b Ha Hb). cbn [bind MultiRange.start MultiRange.end_].
  rewrite <- (sent_coalesce (MultiRange.attributeName p) ">=" a Ha).
  rewrite <- (sent_coalesce (MultiRange.attributeName p) "<=" b Hb).
  unfold sent.
  eexists. split; [reflexivity|].
  destruct (truthy (coalesce_null a)), (truthy (coalesce_null b));
    cbn [app SearchParameters.numericRefinements SearchParameters.disjunctiveFacets
         SearchParameters.addNumericRefinement SearchParameters.addDisjunctiveFacet];
    try rewrite List.app_nil_r; try rewrite <- List.app_assoc; reflexivity.
Qed.

Lemma multiRange_getSearchParameters_of_item_witness :
  exists sp',
    MultiRange.getSearchParameters (SearchParameters.make []) (range_props [] VUndef)
      (one_entry "multiRange" "price" (VStr "10:20")) single_index = Ok sp'
    /\ SearchParameters.numericRefinements sp'
       = [("price", ">=", VNum (Int 10)); ("price", "<=", VNum (Int 20))].
Proof.
  destruct (multiRange_getSearchParameters_of_item (SearchParameters.make [])
              (range_props [] VUndef) (one_entry "multiRange" "price" (VStr "10:20"))
              single_index (VNum (Int 10)) (VNum (Int 20)) eq_refl eq_refl eq_refl)
    as (sp' & Hrun & Hnum).
  exists sp'. split; [exact Hrun | exact Hnum].
Defined.

(* ===================================================================== *)
(** ** The derived items of the multi range *)
(* ===================================================================== *)

Lemma find_existsb {A} (f : A -> bool) (l : list A) :
  existsb f l = match find l f with Some _ => true | None => false end.
Proof.
  unfold find. induction l as [|x r IH]; cbn [existsb List.find]; [reflexivity|].
  now destruct (f x).
Qed.



(** X17.  When there are no results for the targeted index and the current
    refinement reads, [getProvidedProps] of the multi range returns, with
    that refinement and with [canRefine] true exactly when items were
    supplied (a supplied item then has [noRefinement] false, the [All] item
    alone has it true). *)
Theorem multiRange_canRefine_without_results :
  forall (p : MultiRange.props) (searchState : jsval) (sr : MultiRange.searchResults)
         (c : context) (cur : jsval),
    MultiRange.resultsAt sr (MultiRange.getIndex c) = None ->
    MultiRange.getCurrentRefinement p searchState c = Ok cur ->
    exists r,
      MultiRange.getProvidedProps p searchState sr c = Ok r
      /\ MultiRange.currentRefinement r = cur
      /\ MultiRange.canRefine r
         = match MultiRange.items p with
           | [] => false
           | _ :: _ => true
           end.
Proof.
  intros p st sr c cur Hres Hcur.
  unfold MultiRange.getProvidedProps. rewrite Hcur. cbn [bind].
  eexists. split; [reflexivity|]. cbn [MultiRange.currentRefinement MultiRange.canRefine].
  split; [reflexivity|].
  unfold MultiRange.derivedItems. rewrite Hres.
  destruct (MultiRange.items p) as [|i r]; [reflexivity|].
  cbn [map]. 
  match goal with
  | |- context [if ?b then _ else _] => destruct b
  end; reflexivity.
Qed.

Lemma multiRange_canRefine_without_results_witness :
  exists r,
    MultiRange.getProvidedProps (range_props two_buckets VUndef) (VObj []) None single_index
    = Ok r
    /\ MultiRange.canRefine r = true.
Proof.
  destruct (multiRange_canRefine_without_results (range_props two_buckets VUndef)
              (VObj []) None single_index (VStr "") eq_refl eq_refl)
    as (r & Hrun & _ & Hcan).
  exists r. split; [exact Hrun | exact Hcan].
Defined.

(* ===================================================================== *)
(** ** The overlap test of the multi range *)
(* ===================================================================== *)

Lemma rev_string_rev_string (s : string) :
  forall b c, rev_string c (rev_string b s) = rev_string (s ++ c) b.
Proof.
  induction s as [|x s IH]; intros b c; cbn [rev_string append]; [reflexivity|].
  now rewrite IH.
Qed.

Lemma append_empty_r (s : string) : s ++ "" = s.
Proof. induction s as [|x s IH]; cbn [append]; [reflexivity | now rewrite IH]. Qed.

Lemma trim_start_no_space (s : string) :
  no_space s = true -> trim_start s = s.
Proof.
  destruct s as [|x s]; cbn [no_space trim_start]; [reflexivity|].
  now destruct (is_space x).
Qed.

Lemma no_space_rev_string (s : string) :
  forall acc, no_space acc = true -> no_space s = true ->
              no_space (rev_string acc s) = true.
Proof.
  induction s as [|x s IH]; intros acc Hacc Hs; cbn [rev_string]; [exact Hacc|].
  cbn [no_space] in Hs. apply andb_prop in Hs as [Hx Hs].
  apply IH; [|exact Hs]. cbn [no_space]. now rewrite Hx, Hacc.
Qed.

Lemma trim_no_space (s : string) : no_space s = true -> trim s = s.
Proof.
  intros Hs. unfold trim. rewrite (trim_start_no_space s Hs).
  rewrite trim_start_no_space by now apply no_space_rev_string.
  now rewrite rev_string_rev_string, append_empty_r.
Qed.

Lemma digit_string_shape (d : Decimal.uint) :
  no_space (NilEmpty.string_of_uint d) = true
  /\ all_digits (NilEmpty.string_of_uint d) = true.
Proof. induction d; split; try reflexivity; cbn; apply IHd. Qed.

Lemma span_digits_all (s : string) :
  all_digits s = true -> span_digits s = (s, "").
Proof.
  induction s as [|x s IH]; cbn [all_digits span_digits]; [reflexivity|].
  destruct (digit_of x); [|discriminate].
  intros H. now rewrite (IH H).
Qed.

Lemma all_digits_not_Infinity (s : string) :
  all_digits s = true -> (s =? "Infinity")%string = false.
Proof.
  destruct s as [|x s]; [reflexivity|]. cbn [all_digits String.eqb].
  destruct (Ascii.eqb x "I") eqn:E; [|reflexivity].
  apply Ascii.eqb_eq in E. subst x. discriminate.
Qed.

(** [Number] on the digits of a positive number. *)
Lemma Number_of_digit_string (neg : bool) (p : positive) :
  let ds := NilEmpty.string_of_uint (Pos.to_uint p) in
  Number_of_string (if neg then String "-" ds else ds) = num_of_digits neg (Zpos p).
Proof.
  intros ds.
  destruct (string_of_positive_shape p) as (_ & _ & Hsign & Hne).
  destruct (digit_string_shape (Pos.to_uint p)) as [Hspace Hdigits].
  pose proof (parse_digits_positive p) as Hparse.
  fold ds in Hsign, Hne, Hspace, Hdigits, Hparse.
  assert (Hbody : forall t, trim t = t -> read_sign t = (neg, ds) ->
                            (t =? "")%string = false ->
                            Number_of_string t = num_of_digits neg (Zpos p)).
  { intros t Htrim Hread Ht. unfold Number_of_string.
    rewrite Htrim, Ht, Hread, (all_digits_not_Infinity _ Hdigits).
    rewrite (span_digits_all _ Hdigits), Hne. cbn [andb exponent_of String.length].
    unfold digits_value. rewrite append_empty_r, Hparse.
    change (0 - Z.of_nat 0) with 0. change (0 <=? 0) with true. cbv iota.
    change (10 ^ 0) with 1. now rewrite Z.mul_1_r. }
  destruct neg.
  - apply Hbody; [|reflexivity|reflexivity].
    apply trim_no_space. cbn [no_space]. now rewrite Hspace.
  - apply Hbody; [now apply trim_no_space | exact Hsign | exact Hne].
Qed.

Lemma Number_of_num_to_string (z : Z) :
  z <> 0 -> safe_integer z = true -> Number_of_string (num_to_string (Int z)) = Int z.
Proof.
  intros Hz Hsafe.
  destruct (num_to_string_safe z Hz Hsafe) as (p & Habs & Hround & ->).
  rewrite (Number_of_digit_string (z <? 0) p). unfold num_of_digits. rewrite Hround.
  destruct z as [|q|q]; [exfalso; apply Hz; reflexivity|..];
    injection Habs as ->; reflexivity.
Qed.

(** The two ends [itemHasRefinement] reads off the halves of a value. *)
Lemma Number_of_half (v : jsval) :
  is_nonzero_bound v = true ->
  let half := if truthy v then to_string v else "" in
  (if num_eqb (Number_of_string half) (Int 0) then NegInf else Number_of_string half)
  = lower_end v
  /\ (if num_eqb (Number_of_string half) (Int 0) then PosInf else Number_of_string half)
     = upper_end v.
Proof.
  destruct v as [| | |n| |]; try discriminate; try (intros _; split; reflexivity).
  destruct n as [| | |z]; try discriminate.
  cbn [is_nonzero_bound truthy to_string lower_end upper_end].
  intros Hz. apply andb_prop in Hz as [Hz Hsafe]. rewrite Hz. cbv zeta iota.
  assert (Hz' : z <> 0) by (intros ->; discriminate Hz).
  rewrite (Number_of_num_to_string z Hz' Hsafe). cbn [num_eqb].
  apply negb_true_iff in Hz. now rewrite Hz.
Qed.

(** On the encoding of an item, [itemHasRefinement] runs its two tests
    between the statistics and the two ends of the bucket. *)
Lemma itemHasRefinement_encoded (attributeName : string)
  (results : MultiRange.SearchResults) (a b : jsval) :
  is_nonzero_bound a = true ->
  is_nonzero_bound b = true ->
  MultiRange.itemHasRefinement attributeName results
    (MultiRange.stringifyItem (MultiRange.mkRange a b))
  = match (if MultiRange.getFacetByName results attributeName
           then MultiRange.getFacetStats results attributeName else None) with
    | Some st =>
        negb (MultiRange.isRefinementsRangeIncludesInsideItemRange st
                (lower_end a) (upper_end b)
              || MultiRange.isItemRangeIncludedInsideRefinementsRange st
                   (lower_end a) (upper_end b))
    | None => true
    end.
Proof.
  intros Ha Hb.
  destruct (half_of_bound a Ha) as [Hsa _].
  destruct (half_of_bound b Hb) as [Hsb _].
  destruct (Number_of_half a Ha) as [Hlo _].
  destruct (Number_of_half b Hb) as [_ Hhi].
  unfold MultiRange.itemHasRefinement, MultiRange.stringifyItem.
  cbn [MultiRange.start MultiRange.end_].
  destruct (is_undefined a && is_undefined b) eqn:E.
  - apply andb_prop in E as [Ea Eb].
    destruct a; try discriminate; destruct b; try discriminate.
    cbn [String.eqb orb lower_end upper_end]. rewrite !orb_true_r.
    now destruct (if MultiRange.getFacetByName results attributeName
                  then MultiRange.getFacetStats results attributeName else None).
  - change (":" ++ ?x) with (String ":" x).
    rewrite split_app_sep by exact Hsa.
    rewrite split_plain by exact Hsb.
    cbn [nth_error Number_of_elem].
    assert (Hne : forall x y, (x ++ String ":" y =? "")%string = false)
      by (intros x y; now destruct x).
    rewrite Hne, !orb_false_r. cbv zeta in Hlo, Hhi. rewrite Hlo, Hhi.
    now destruct (if MultiRange.getFacetByName results attributeName
                  then MultiRange.getFacetStats results attributeName else None).
Qed.

(** The two tests, between integer statistics and a bucket, in terms of the
    order of the integers. *)
Lemma overlap_tests_order (m M : Z) (a b : jsval) :
  is_nonzero_bound a = true ->
  is_nonzero_bound b = true ->
  let st := {| MultiRange.min := Int m; MultiRange.max := Int M |} in
  (MultiRange.isRefinementsRangeIncludesInsideItemRange st (lower_end a) (upper_end b)
   = true
   <-> strictly_inside (bound_value a) (bound_value b) m
       \/ strictly_inside (bound_value a) (bound_value b) M)
  /\ (MultiRange.isItemRangeIncludedInsideRefinementsRange st (lower_end a) (upper_end b)
      = true
      <-> strictly_between m M (bound_value a) \/ strictly_between m M (bound_value b)).
Proof.
  intros Ha Hb st. subst st.
  unfold MultiRange.isRefinementsRangeIncludesInsideItemRange,
    MultiRange.isItemRangeIncludedInsideRefinementsRange, num_gtb,
    strictly_inside, strictly_between.
  cbn [MultiRange.min MultiRange.max].
  destruct a as [| | |[| | |x]| |]; try discriminate Ha;
    destruct b as [| | |[| | |y]| |]; try discriminate Hb;
    cbn [lower_end upper_end bound_value num_ltb];
    rewrite ?orb_true_iff, ?andb_true_iff, ?Z.ltb_lt;
    split; intuition (try discriminate; try lia).
Qed.

(** C1.  With facet statistics [{min: 10, max: 20}], the bucket [10:20] is
    flagged [noRefinement] (the flag [itemHasRefinement] returns is true: it
    has no refinement), while the bucket [5:15] is not; the items derived
    for the two buckets carry these flags.  Both overlap tests are strict.
    On a bucket whose bounds are exactly the min and the max of the
    statistics, whatever these are, neither test holds; a bucket that only
    touches the statistics ([5:10], [20:30]) is flagged as well.  In
    general, for integer statistics and a bucket whose bounds are absent or
    safe integers other than 0, the bucket is not flagged exactly when the
    min or the max lies strictly inside the bucket, or a bound of the bucket
    lies strictly between the min and the max; each test is one half of
    that condition.  Without statistics every bucket is flagged. *)
Theorem itemHasRefinement_strict_boundary :
  forall (attributeName : string) (results : MultiRange.SearchResults),
    MultiRange.getFacetByName results attributeName = true ->
    MultiRange.getFacetStats results attributeName
    = Some {| MultiRange.min := Int 10; MultiRange.max := Int 20 |} ->
    MultiRange.itemHasRefinement attributeName results "10:20" = true
    /\ MultiRange.itemHasRefinement attributeName results "5:15" = false
    /\ (forall (currentRefinement : jsval) (c : context),
          map (fun i => (MultiRange.value i, MultiRange.noRefinement i))
            (MultiRange.derivedItems
               {| MultiRange.attributeName := attributeName;
                  MultiRange.items := two_buckets;
                  MultiRange.defaultRefinement := VUndef;
                  MultiRange.transformItems := None |}
               currentRefinement (Some (fun _ => Some results)) c)
          = [("10:20", true); ("5:15", false); ("", false)])
    /\ (forall st : MultiRange.stats,
          MultiRange.isRefinementsRangeIncludesInsideItemRange
            st (MultiRange.min st) (MultiRange.max st) = false
          /\ MultiRange.isItemRangeIncludedInsideRefinementsRange
               st (MultiRange.min st) (MultiRange.max st) = false)
    /\ (MultiRange.itemHasRefinement attributeName results "5:10" = true
        /\ MultiRange.itemHasRefinement attributeName results "20:30" = true
        /\ MultiRange.itemHasRefinement attributeName results "5:25" = false
        /\ MultiRange.itemHasRefinement attributeName results "12:18" = false)
    /\ (forall (m M : Z) (a b : jsval),
          is_nonzero_bound a = true ->
          is_nonzero_bound b = true ->
          let st := {| MultiRange.min := Int m; MultiRange.max := Int M |} in
          (MultiRange.isRefinementsRangeIncludesInsideItemRange
             st (lower_end a) (upper_end b) = true
           <-> strictly_inside (bound_value a) (bound_value b) m
               \/ strictly_inside (bound_value a) (bound_value b) M)
          /\ (MultiRange.isItemRangeIncludedInsideRefinementsRange
                st (lower_end a) (upper_end b) = true
              <-> strictly_between m M (bound_value a)
                  \/ strictly_between m M (bound_value b)))
    /\ (forall (attribute : string) (other : MultiRange.SearchResults)
               (m M : Z) (a b : jsval),
          MultiRange.getFacetByName other attribute = true ->
          MultiRange.getFacetStats other attribute
          = Some {| MultiRange.min := Int m; MultiRange.max := Int M |} ->
          is_nonzero_bound a = true ->
          is_nonzero_bound b = true ->
          (MultiRange.itemHasRefinement attribute other
             (MultiRange.stringifyItem (MultiRange.mkRange a b)) = false
           <-> strictly_inside (bound_value a) (bound_value b) m
               \/ strictly_inside (bound_value a) (bound_value b) M
               \/ strictly_between m M (bound_value a)
               \/ strictly_between m M (bound_value b)))
    /\ (forall (attribute : string) (other : MultiRange.SearchResults) (value : string),
          MultiRange.getFacetByName other attribute = false
          \/ MultiRange.getFacetStats other attribute = None ->
          MultiRange.itemHasRefinement attribute other value = true).
Proof.
  intros attributeName results Hfacet Hstats.
  assert (Hflag : forall value expected,
             MultiRange.itemHasRefinement attributeName
               {| MultiRange.getFacetByName := fun _ => true;
                  MultiRange.getFacetStats :=
                    fun _ => Some {| MultiRange.min := Int 10; MultiRange.max := Int 20 |} |}
               value = expected ->
             MultiRange.itemHasRefinement attributeName results value = expected).
  { intros value expected <-. unfold MultiRange.itemHasRefinement.
    cbn [MultiRange.getFacetByName MultiRange.getFacetStats].
    now rewrite Hfacet, Hstats. }
  assert (H1 : MultiRange.itemHasRefinement attributeName results "10:20" = true)
    by (apply Hflag; reflexivity).
  assert (H2 : MultiRange.itemHasRefinement attributeName results "5:15" = false)
    by (apply Hflag; reflexivity).
  split; [exact H1|]. split; [exact H2|]. split; [|split; [|split; [|split; [|split]]]].
  - intros currentRefinement c.
    unfold MultiRange.derivedItems, MultiRange.resultsAt, two_buckets.
    cbn [MultiRange.items MultiRange.attributeName MultiRange.getId map
         MultiRange.bounds MultiRange.label].
    change (MultiRange.stringifyItem
              (MultiRange.mkRange (VNum (Int 10)) (VNum (Int 20)))) with "10:20".
    change (MultiRange.stringifyItem
              (MultiRange.mkRange (VNum (Int 5)) (VNum (Int 15)))) with "5:15".
    cbn [existsb MultiRange.value String.eqb Ascii.eqb Bool.eqb orb negb].
    rewrite Hfacet, Hstats, H1, H2. reflexivity.
  - intros st. split.
    + unfold MultiRange.isRefinementsRangeIncludesInsideItemRange, num_gtb.
      now rewrite !num_ltb_irrefl, andb_false_r.
    + unfold MultiRange.isItemRangeIncludedInsideRefinementsRange, num_gtb.
      now rewrite !num_ltb_irrefl, andb_false_r.
  - repeat split; apply Hflag; reflexivity.
  - intros m M a b Ha Hb. exact (overlap_tests_order m M a b Ha Hb).
  - intros attribute other m M a b Hf Hs Ha Hb.
    rewrite (itemHasRefinement_encoded attribute other a b Ha Hb), Hf, Hs.
    destruct (overlap_tests_order m M a b Ha Hb) as [Hinside Hbetween].
    cbv zeta in Hinside, Hbetween.
    rewrite negb_false_iff, orb_true_iff, Hinside, Hbetween. tauto.
  - intros attribute other value Hnone. unfold MultiRange.itemHasRefinement.
    destruct Hnone as [-> | Hnone]; [reflexivity|].
    rewrite Hnone. now destruct (MultiRange.getFacetByName other attribute).
Qed.

Lemma itemHasRefinement_strict_boundary_witness :
  MultiRange.itemHasRefinement "price" example_results "10:20" = true
  /\ MultiRange.itemHasRefinement "price" example_results "5:15" = false.
Proof.
  destruct (itemHasRefinement_strict_boundary "price" example_results
              eq_refl eq_refl) as [H1 [H2 _]].
  split; [exact H1 | exact H2].
Defined.

(* ===================================================================== *)
(** ** The metadata *)
(* ===================================================================== *)

(** X19.  [getMetadata] of the multi range returns at most one entry, under
    the attribute name as id, and the function that entry carries clears:
    applied to any state, it returns a state from which the widget reads
    [''] (the attribute and index names being plain keys). *)
Theorem multiRange_getMetadata_clears :
  forall (p : MultiRange.props) (searchState : jsval) (c : context)
         (id : string) (entries : list MultiRange.metadataItem),
    forallb plain_key (statePath c MultiRange.namespace (MultiRange.getId p)) = true ->
    MultiRange.getMetadata p searchState c = Ok (id, entries) ->
    id = MultiRange.attributeName p
    /\ (List.length entries <= 1)%nat
    /\ (forall e other next,
          In e entries ->
          MultiRange.meta_value e other = Ok next ->
          MultiRange.getCurrentRefinement p next c = Ok (VStr "")).
Proof.
  intros p st c id entries Hplain. unfold MultiRange.getMetadata.
  destruct (MultiRange.getCurrentRefinement p st c) as [cur|]; cbn [bind]; [|discriminate].
  destruct (negb (is_empty_string cur)).
  - destruct (find _ _) as [i|]; [|discriminate].
    intros [= <- <-]. split; [reflexivity|]. split; [simpl; lia|].
    intros e other next [<-|[]]. cbn [MultiRange.meta_value].
    intros Hrefine. exact (multiRange_refine_stores_then_read p other _ next c Hplain Hrefine).
  - intros [= <- <-]. split; [reflexivity|]. split; [simpl; lia|].
    intros e other next [].
Qed.

Lemma multiRange_getMetadata_clears_witness :
  exists entries,
    MultiRange.getMetadata (range_props two_buckets VUndef)
      (one_entry "multiRange" "price" (VStr "10:20")) single_index
    = Ok ("price", entries)
    /\ map MultiRange.meta_label entries = ["price: 10 to 20"]
    /\ (List.length entries <= 1)%nat.
Proof.
  eexists. split; [reflexivity|]. split; [reflexivity|].
  exact (proj1 (proj2 (multiRange_getMetadata_clears (range_props two_buckets VUndef)
                         (one_entry "multiRange" "price" (VStr "10:20")) single_index
                         _ _ eq_refl eq_refl))).
Defined.

(** X20.  [getMetadata] of the multi range throws when the current
    refinement is not [''] and is the value of none of the supplied
    items: the item it looks for is not found. *)
Theorem multiRange_getMetadata_throws_on_unknown_value :
  forall (p : MultiRange.props) (searchState : jsval) (c : context) (cur : jsval),
    MultiRange.getCurrentRefinement p searchState c = Ok cur ->
    is_empty_string cur = false ->
    existsb (fun i => eq_string cur (MultiRange.stringifyItem (MultiRange.bounds i)))
      (MultiRange.items p) = false ->
    MultiRange.getMetadata p searchState c = Throw TypeError.
Proof.
  intros p st c cur Hcur Hne Hnone. unfold MultiRange.getMetadata.
  rewrite Hcur. cbn [bind]. rewrite Hne. cbn [negb].
  rewrite find_existsb in Hnone.
  now destruct (find _ _).
Qed.

Lemma multiRange_getMetadata_throws_on_unknown_value_witness :
  MultiRange.getMetadata (range_props two_buckets VUndef)
    (one_entry "multiRange" "price" (VStr "20:30")) single_index
  = Throw TypeError.
Proof.
  exact (multiRange_getMetadata_throws_on_unknown_value (range_props two_buckets VUndef)
           (one_entry "multiRange" "price" (VStr "20:30")) single_index (VStr "20:30")
           eq_refl eq_refl eq_refl).
Defined.

(** X21.  [getMetadata] of the hierarchical menu never throws; it returns
    one entry when the current refinement is truthy and none otherwise, and
    the function that entry carries clears: applied to any state, it returns
    a state from which the widget reads null. *)
Theorem hierarchicalMenu_getMetadata_clears :
  forall (p : HierarchicalMenu.props) (searchState : jsval) (c : context),
    exists cur entries,
      HierarchicalMenu.getCurrentRefinement p searchState c = Ok cur
      /\ HierarchicalMenu.getMetadata p searchState c
         = Ok (HierarchicalMenu.getId p, entries)
      /\ List.length entries = (if truthy cur then 1 else 0)%nat
      /\ (forall e other next,
            In e entries ->
            HierarchicalMenu.meta_value e other = Ok next ->
            HierarchicalMenu.getCurrentRefinement p next c = Ok VNull).
Proof.
  intros p st c. unfold HierarchicalMenu.getMetadata.
  rewrite (hierarchicalMenu_read p st c). cbn [bind].
  eexists _, _. split; [reflexivity|]. split; [reflexivity|].
  match goal with
  | |- context [truthy ?v] => destruct (truthy v)
  end; cbn [negb List.length]; (split; [reflexivity|]).
  - intros e other next [<-|[]]. cbn [HierarchicalMenu.meta_value]. intros Hrefine.
    apply hierarchicalMenu_refine_stores in Hrefine.
    now rewrite (hierarchicalMenu_read_present _ _ _ _ Hrefine).
  - intros e other next [].
Qed.

Lemma hierarchicalMenu_getMetadata_clears_witness :
  exists entries,
    HierarchicalMenu.getMetadata (menu_props VUndef)
      (one_entry "hierarchicalMenu" "cat" (VStr "a > b")) single_index
    = Ok ("cat", entries)
    /\ map HierarchicalMenu.meta_label entries = ["cat: a > b"].
Proof.
  destruct (hierarchicalMenu_getMetadata_clears (menu_props VUndef)
              (one_entry "hierarchicalMenu" "cat" (VStr "a > b")) single_index)
    as (cur & entries & _ & Hrun & _).
  eexists. split; reflexivity.
Defined.

(* ===================================================================== *)
(** ** The items of the hierarchical menu *)
(* ===================================================================== *)

Lemma facetValue_nested_ind (P : HierarchicalMenu.facetValue -> Prop) :
  (forall name path count isRefined data,
      match data with
      | Some l => Forall P l
      | None => True
      end ->
      P (HierarchicalMenu.FacetValue name path count isRefined data)) ->
  forall v, P v.
Proof.
  intros H. fix IH 1. intros [name path count isRefined data]. apply H.
  destruct data as [l|]; [|exact I].
  revert l. fix IHl 1. intros [|x r]; constructor; [apply IH | apply IHl].
Qed.

Lemma sliceMap_Forall {A B} (f : A -> result B) (R : A -> B -> Prop) (l : list A) :
  Forall (fun x => exists y, f x = Ok y /\ R x y) l ->
  forall n, exists ys, sliceMap f l n = Ok ys /\ Forall2 R (firstn n l) ys.
Proof.
  induction 1 as [|x r (y & Hy & Hxy) _ IH]; intros n.
  - exists []. split; [reflexivity|]. rewrite firstn_nil. constructor.
  - destruct n as [|n]; cbn [sliceMap firstn].
    + exists []. split; [reflexivity | constructor].
    + destruct (IH n) as (ys & Hys & Hall). rewrite Hy, Hys. cbn [bind].
      exists (y :: ys). split; [reflexivity | now constructor].
Qed.

Lemma Forall2_length_map {A B C} (R : A -> B -> Prop) (f : A -> C) (g : B -> C)
  (l : list A) (l' : list B) :
  Forall2 R l l' -> (forall x y, R x y -> g y = f x) ->
  List.length l' = List.length l /\ map g l' = map f l.
Proof.
  intros H Hfg. induction H as [|x y l l' Hxy _ [IHlen IHmap]]; [now split|].
  cbn [List.length map]. now rewrite IHlen, IHmap, (Hfg x y Hxy).
Qed.

(** On the builder as modelled, whose toggle returns on every value,
    [getValue] and the derivation of the items return too. *)
Lemma getValue_returns (path : string) (p : HierarchicalMenu.props) (st : jsval)
  (c : context) :
  exists v,
    HierarchicalMenu.getValue path p st c = Ok v
    /\ (HierarchicalMenu.getCurrentRefinement p st c = Ok VNull -> v = VStr path).
Proof.
  unfold HierarchicalMenu.getValue. rewrite (hierarchicalMenu_read p st c). cbn [bind].
  match goal with
  | |- context [is_null ?v] => generalize v as cur
  end.
  intros cur. destruct (is_null cur) eqn:E; eexists; (split; [reflexivity|]).
  - reflexivity.
  - intros [= ->]. discriminate E.
Qed.

Lemma Forall2_within_limit (limit : nat) (p : HierarchicalMenu.props) (st : jsval)
  (c : context) (l : list HierarchicalMenu.facetValue) (l' : list HierarchicalMenu.item) :
  Forall2 (derived_from limit p st c) l l' ->
  forallb (within_limit limit) l' = true.
Proof.
  induction 1 as [|x y l l' (_ & Hy & _) _ IH]; [reflexivity|].
  cbn [forallb]. now rewrite Hy, IH.
Qed.

Lemma transformNode_returns (limit : nat) (p : HierarchicalMenu.props) (st : jsval)
  (c : context) :
  forall v, exists i,
    HierarchicalMenu.transformNode limit p st c v = Ok i
    /\ derived_from limit p st c v i.
Proof.
  induction v as [name path count isRefined data IH] using facetValue_nested_ind.
  destruct (getValue_returns path p st c) as (value & Hvalue & Hnull).
  cbn [HierarchicalMenu.transformNode]. rewrite Hvalue. cbn [bind].
  destruct data as [children|].
  - destruct (sliceMap_Forall _ (derived_from limit p st c) children IH limit)
      as (items & Hitems & Hall).
    rewrite Hitems. cbn [bind]. eexists. split; [reflexivity|].
    repeat split; [|exact Hnull].
    cbn [within_limit]. rewrite (Forall2_within_limit _ _ _ _ _ _ Hall), andb_true_r.
    apply Nat.leb_le.
    rewrite <- (Forall2_length Hall), length_firstn. apply Nat.le_min_l.
  - cbn [bind]. eexists. split; [reflexivity|]. repeat split. exact Hnull.
Qed.


(** The items [transformValue] derives, in the model of the builder. *)
Lemma transformValue_derives (value : list HierarchicalMenu.facetValue) (limit : nat)
  (p : HierarchicalMenu.props) (st : jsval) (c : context) :
  exists items,
    HierarchicalMenu.transformValue value limit p st c = Ok items
    /\ Forall2 (derived_from limit p st c) (firstn limit value) items.
Proof.
  unfold HierarchicalMenu.transformValue.
  assert (Hall : Forall (fun v => exists i,
                             HierarchicalMenu.transformNode limit p st c v = Ok i
                             /\ derived_from limit p st c v i) value).
  { apply Forall_forall. intros v _. apply transformNode_returns. }
  exact (sliceMap_Forall _ _ value Hall limit).
Qed.

(** While nothing is refined, the builder is not asked and the derivation
    returns. *)
Lemma transformNode_unrefined (limit : nat) (p : HierarchicalMenu.props) (st : jsval)
  (c : context) :
  HierarchicalMenu.getCurrentRefinement p st c = Ok VNull ->
  forall v, exists i,
    HierarchicalMenu.transformNode limit p st c v = Ok i
    /\ HierarchicalMenu.item_value i = VStr (HierarchicalMenu.facet_path v).
Proof.
  intros Hnull.
  induction v as [name path count isRefined data IH] using facetValue_nested_ind.
  cbn [HierarchicalMenu.transformNode]. unfold HierarchicalMenu.getValue.
  rewrite Hnull. cbn [bind is_null].
  destruct data as [children|].
  - destruct (sliceMap_Forall _
                (fun v i => HierarchicalMenu.item_value i
                            = VStr (HierarchicalMenu.facet_path v))
                children IH limit) as (items & Hitems & _).
    rewrite Hitems. cbn [bind]. eexists. split; reflexivity.
  - cbn [bind]. eexists. split; reflexivity.
Qed.


(** X22.  While nothing is refined (the current refinement reads null),
    [transformValue] of the hierarchical menu returns, and the value of each
    item is the path of its node.  Whenever it returns, it has derived one
    item for each of the first [limit] nodes, in order and labelled by their
    names, and no deeper level of the derived items holds more than [limit]
    items. *)
Theorem hierarchicalMenu_transformValue_slices :
  forall (value : list HierarchicalMenu.facetValue) (limit : nat)
         (p : HierarchicalMenu.props) (searchState : jsval) (c : context),
    (HierarchicalMenu.getCurrentRefinement p searchState c = Ok VNull ->
     exists items,
       HierarchicalMenu.transformValue value limit p searchState c = Ok items
       /\ map HierarchicalMenu.item_value items
          = map (fun v => VStr (HierarchicalMenu.facet_path v)) (firstn limit value))
    /\ (forall items,
          HierarchicalMenu.transformValue value limit p searchState c = Ok items ->
          List.length items = Nat.min limit (List.length value)
          /\ map HierarchicalMenu.item_label items
             = map HierarchicalMenu.facet_name (firstn limit value)
          /\ forallb (within_limit limit) items = true).
Proof.
  intros value limit p st c. split.
  - intros Hnull. unfold HierarchicalMenu.transformValue.
    assert (Hall : Forall (fun v => exists i,
                               HierarchicalMenu.transformNode limit p st c v = Ok i
                               /\ HierarchicalMenu.item_value i
                                  = VStr (HierarchicalMenu.facet_path v)) value).
    { apply Forall_forall. intros v _. now apply transformNode_unrefined. }
    destruct (sliceMap_Forall _ _ value Hall limit) as (items & Hitems & Hrel).
    exists items. split; [exact Hitems|].
    refine (proj2 (Forall2_length_map _ (fun v => VStr (HierarchicalMenu.facet_path v))
                     HierarchicalMenu.item_value _ _ Hrel _)).
    intros x y H. exact H.
  - intros items Hrun.
    destruct (transformValue_derives value limit p st c) as (items' & Hitems & Hrel).
    rewrite Hrun in Hitems. injection Hitems as <-.
    destruct (Forall2_length_map _ HierarchicalMenu.facet_name HierarchicalMenu.item_label
                _ _ Hrel) as [Hlen Hlabels]; [now intros x y (H & _)|].
    split; [now rewrite Hlen, length_firstn|].
    split; [exact Hlabels|].
    exact (Forall2_within_limit _ _ _ _ _ _ Hrel).
Qed.

Lemma hierarchicalMenu_transformValue_slices_witness :
  exists items,
    HierarchicalMenu.transformValue
      [ HierarchicalMenu.FacetValue "a" "a" 3 false
          (Some [ HierarchicalMenu.FacetValue "b" "a > b" 2 false None;
                  HierarchicalMenu.FacetValue "c" "a > c" 1 false None ]);
        HierarchicalMenu.FacetValue "d" "d" 1 false None ]
      1%nat (menu_props VUndef) (VObj []) single_index = Ok items
    /\ map HierarchicalMenu.item_value items = [VStr "a"]
    /\ forallb (within_limit 1%nat) items = true.
Proof.
  destruct (hierarchicalMenu_transformValue_slices
              [ HierarchicalMenu.FacetValue "a" "a" 3 false
                  (Some [ HierarchicalMenu.FacetValue "b" "a > b" 2 false None;
                          HierarchicalMenu.FacetValue "c" "a > c" 1 false None ]);
                HierarchicalMenu.FacetValue "d" "d" 1 false None ]
              1%nat (menu_props VUndef) (VObj []) single_index)
    as [Hunrefined Hshape].
  destruct (Hunrefined eq_refl) as (items & Hrun & Hvalues).
  exists items. split; [exact Hrun|]. split; [exact Hvalues|].
  exact (proj2 (proj2 (Hshape items Hrun))).
Defined.



(* ===================================================================== *)
(** ** cleanUp of the hierarchical menu on the store *)
(* ===================================================================== *)

Lemma read_write_same (h : Store.heap) (l : Store.loc) (o : Store.obj) :
  (l < List.length h)%nat -> Store.read (Store.write h l o) l = o.
Proof.
  unfold Store.read. revert l. induction h as [|x r IH]; intros l Hl; [simpl in Hl; lia|].
  destruct l as [|l]; cbn [Store.write nth]; [reflexivity|].
  apply IH. simpl in Hl. lia.
Qed.

Lemma read_write_other (h : Store.heap) (l l' : Store.loc) (o : Store.obj) :
  l' <> l -> Store.read (Store.write h l o) l' = Store.read h l'.
Proof.
  unfold Store.read. revert l l'. induction h as [|x r IH]; intros l l' Hne.
  - now destruct l.
  - destruct l as [|l], l' as [|l']; cbn [Store.write nth]; try reflexivity;
      [congruence|]. apply IH. congruence.
Qed.

Lemma length_write (h : Store.heap) (l : Store.loc) (o : Store.obj) :
  List.length (Store.write h l o) = List.length h.
Proof.
  revert l. induction h as [|x r IH]; intros l; [now destruct l|].
  destruct l; cbn [Store.write List.length]; [reflexivity | now rewrite IH].
Qed.

Lemma read_alloc_old (h : Store.heap) (o : Store.obj) (l : Store.loc) :
  (l < List.length h)%nat -> Store.read (h ++ [o])%list l = Store.read h l.
Proof. intros Hl. unfold Store.read. now apply app_nth1. Qed.

Lemma read_alloc_new (h : Store.heap) (o : Store.obj) :
  Store.read (h ++ [o])%list (List.length h) = o.
Proof. unfold Store.read. now rewrite nth_middle. Qed.

(** X24.  Outside a multi-index context, [cleanUp] of the hierarchical
    menu on a state object of the store never throws and changes one
    object at most: the object the namespace of the state refers to, which
    loses the entry of the widget in place.  The state it returns is the
    argument itself, or a fresh object that holds the properties of the
    argument other than the namespace. *)
Theorem hierarchicalMenu_cleanUp_store_frame :
  forall (p : HierarchicalMenu.props) (l : Store.loc) (c : context) (h : Store.heap),
    multiIndexContext c = None ->
    (l < List.length h)%nat ->
    exists h' r,
      HierarchicalMenu.cleanUp p (Store.Ref l) c h = Ok (h', r)
      /\ (forall l',
            (l' < List.length h)%nat ->
            lookup HierarchicalMenu.namespace (Store.read h l) <> Some (Store.Ref l') ->
            Store.read h' l' = Store.read h l')
      /\ (forall m,
            (m < List.length h)%nat ->
            lookup HierarchicalMenu.namespace (Store.read h l) = Some (Store.Ref m) ->
            Store.read h' m = remove_key (HierarchicalMenu.getId p) (Store.read h m))
      /\ (r = Store.Ref l
          \/ (r = Store.Ref (List.length h)
              /\ Store.read h' (List.length h)
                 = remove_key HierarchicalMenu.namespace (Store.read h' l))).
Proof.
  intros p l c h Hc Hl.
  unfold HierarchicalMenu.cleanUp, HierarchicalMenu.hasMultipleIndex. rewrite Hc.
  cbn [bind]. cbv zeta.
  set (h1 := Store.unset h (Store.Ref l)
               [HierarchicalMenu.namespace; HierarchicalMenu.getId p]).
  assert (Hlen : List.length h1 = List.length h).
  { subst h1. unfold Store.unset. cbn [removelast Store.baseGet last].
    destruct (lookup HierarchicalMenu.namespace (Store.read h l)) as [[v|m]|];
      try reflexivity. apply length_write. }
  assert (Hframe : forall l',
             lookup HierarchicalMenu.namespace (Store.read h l) <> Some (Store.Ref l') ->
             Store.read h1 l' = Store.read h l').
  { intros l' Hns. subst h1. unfold Store.unset. cbn [removelast Store.baseGet last].
    destruct (lookup HierarchicalMenu.namespace (Store.read h l)) as [[v|m]|];
      try reflexivity.
    apply read_write_other. congruence. }
  assert (Hdeleted : forall m,
             (m < List.length h)%nat ->
             lookup HierarchicalMenu.namespace (Store.read h l) = Some (Store.Ref m) ->
             Store.read h1 m = remove_key (HierarchicalMenu.getId p) (Store.read h m)).
  { intros m Hm Hns. subst h1. unfold Store.unset. cbn [removelast Store.baseGet last].
    rewrite Hns. now apply read_write_same. }
  cbn [Store.get bind].
  destruct (Store.isEmpty h1 _).
  - cbn [Store.omit Store.alloc]. eexists _, _. split; [reflexivity|].
    split; [|split].
    + intros l' Hl' Hns. rewrite read_alloc_old by lia. now apply Hframe.
    + intros m Hm Hns. rewrite read_alloc_old by lia. now apply Hdeleted.
    + right. rewrite Hlen. split; [reflexivity|].
      rewrite <- Hlen at 1. rewrite read_alloc_new.
      now rewrite read_alloc_old by lia.
  - eexists _, _. split; [reflexivity|]. split; [|split].
    + intros l' _ Hns. now apply Hframe.
    + exact Hdeleted.
    + now left.
Qed.

Lemma hierarchicalMenu_cleanUp_store_frame_witness :
  exists h' r,
    HierarchicalMenu.cleanUp (menu_props VUndef) (snd two_menus_store) single_index
      (fst two_menus_store) = Ok (h', r)
    /\ Store.read h' 0%nat = [("brand", Store.Prim (VStr "b"))]
    /\ Store.read h' 1%nat = Store.read (fst two_menus_store) 1%nat.
Proof.
  destruct (hierarchicalMenu_cleanUp_store_frame (menu_props VUndef) 1%nat single_index
              (fst two_menus_store) eq_refl)
    as (h' & r & Hrun & Hframe & Hdeleted & _).
  - vm_compute. lia.
  - exists h', r. split; [exact Hrun|]. split.
    + rewrite (Hdeleted 0%nat); [reflexivity | vm_compute; lia | reflexivity].
    + apply Hframe; [vm_compute; lia | vm_compute; discriminate].
Defined.

(** X25.  In a multi-index context, on a state object whose [indices] is
    truthy and which has no key that is itself the dotted prefix
    [indices.<index>.hierarchicalMenu], [cleanUp] of the hierarchical menu
    never throws and deletes nothing: every object of the store is as it
    was, the entry of the widget under the index included. *)
Theorem hierarchicalMenu_cleanUp_multi_index_deletes_nothing :
  forall (p : HierarchicalMenu.props) (l : Store.loc) (c : context) (h : Store.heap)
         (index : string) (indices : Store.hval),
    multiIndexContext c = Some index ->
    lookup "indices" (Store.read h l) = Some indices ->
    Store.truthy indices = true ->
    lookup ("indices." ++ index ++ "." ++ HierarchicalMenu.namespace) (Store.read h l)
    = None ->
    exists h' r,
      HierarchicalMenu.cleanUp p (Store.Ref l) c h = Ok (h', r)
      /\ (forall l', (l' < List.length h)%nat -> Store.read h' l' = Store.read h l').
Proof.
  intros p l c h index indices Hc Hindices Htruthy Hprefix.
  unfold HierarchicalMenu.cleanUp, HierarchicalMenu.hasMultipleIndex,
    HierarchicalMenu.getIndex. rewrite Hc.
  cbn [Store.get]. rewrite Hindices. cbn [bind]. rewrite Htruthy. cbv zeta iota.
  assert (Hunset : Store.unset h (Store.Ref l)
                     ["indices." ++ index ++ "." ++ HierarchicalMenu.namespace;
                      HierarchicalMenu.getId p] = h).
  { unfold Store.unset. cbn [removelast Store.baseGet last]. now rewrite Hprefix. }
  rewrite Hunset.
  destruct (Store.isEmpty h _).
  - cbn [Store.omit Store.alloc]. eexists _, _. split; [reflexivity|].
    intros l' Hl'. now apply read_alloc_old.
  - eexists _, _. split; [reflexivity|]. reflexivity.
Qed.

Lemma hierarchicalMenu_cleanUp_multi_index_deletes_nothing_witness :
  exists h' r,
    HierarchicalMenu.cleanUp (menu_props VUndef) (snd menu_under_first_store) multi_index
      (fst menu_under_first_store) = Ok (h', r)
    /\ Store.read h' 0%nat = [("cat", Store.Prim (VStr "a"))].
Proof.
  destruct (hierarchicalMenu_cleanUp_multi_index_deletes_nothing (menu_props VUndef) 3%nat
              multi_index (fst menu_under_first_store) "first" (Store.Ref 2%nat)
              eq_refl eq_refl eq_refl eq_refl)
    as (h' & r & Hrun & Hsame).
  exists h', r. split; [exact Hrun|].
  rewrite Hsame; [reflexivity | vm_compute; lia].
Defined.
